(** * Logwell Python SDK: the HTTP transport (transport.py)

    A shallow embedding of [sdks/python/src/logwell/transport.py]:
    the backoff delay [_delay], the retry loop [HttpTransport.send], the
    single exchange [HttpTransport._do_request] and the two helpers that
    build a classified error, [_try_parse_error] and [_create_error].

    - Python [int] is [Z]; the attempt index of [range] is a [nat].
    - Python [float] is IEEE 754 binary64, here [spec_float] with 53 bits
      of precision and exponents below 1024, rounded to nearest even.
    - What the interpreter and httpx do around the code (the network, the
      random generator, the clock) is an oracle plus a trace of events.
    - A coroutine is a function from the store to an outcome and a store;
      [await] is sequencing. *)

From Stdlib Require Import ZArith String List Lia Bool Arith.
From Stdlib Require Import QArith Qpower Lqa.
From Stdlib Require Import SpecFloat DecimalString.
Import ListNotations.
Set Warnings "-register-all".
Local Open Scope string_scope.
Local Open Scope list_scope.
Local Open Scope Z_scope.

(** ** Python floats *)

Module PyFloat.

Definition float := spec_float.
Definition prec : Z := 53.
Definition emax : Z := 1024.

Definition mul : float -> float -> float := SFmul prec emax.
Definition add : float -> float -> float := SFadd prec emax.
Definition div : float -> float -> float := SFdiv prec emax.
Definition ltb : float -> float -> bool := SFltb.
Definition leb : float -> float -> bool := SFleb.

(** The double nearest to an integer; an infinite result is kept as such. *)
Definition of_Z (n : Z) : float := binary_normalize prec emax n 0 false.

(** [float(n)] as the interpreter converts the [int] operand of a mixed
    [float * int]: [None] stands for
    [OverflowError: int too large to convert to float]. *)
Definition of_int (n : Z) : option float :=
  match of_Z n with
  | S754_infinity _ => None
  | x => Some x
  end.

(** The literals of the module, the doubles nearest to 0.1, 0.3, 10.0
    and 30.0, and the 13 seconds that bound the backoff. *)
Definition lit_0_1 : float := Eval vm_compute in div (of_Z 1) (of_Z 10).
Definition lit_0_3 : float := Eval vm_compute in div (of_Z 3) (of_Z 10).
Definition lit_10 : float := Eval vm_compute in of_Z 10.
Definition lit_13 : float := Eval vm_compute in of_Z 13.
Definition lit_30 : float := Eval vm_compute in of_Z 30.

(** The builtin [min(a, b)] of two floats: [b] when [b < a], else [a]. *)
Definition min (a b : float) : float := if ltb b a then b else a.

(** Truth value of a float: everything but a zero. *)
Definition truthy (x : float) : bool :=
  match x with
  | S754_zero _ => false
  | _ => true
  end.

End PyFloat.

(** ** Python values read from a response body *)

(** What [response.json()] can return. A [PyDict] lists the items of
    the dict, keys distinct. *)
Inductive pyval : Type :=
| PyNone
| PyBool (b : bool)
| PyInt (n : Z)
| PyFloatV (x : PyFloat.float)
| PyStr (s : string)
| PyList (l : list pyval)
| PyDict (d : list (string * pyval)).

(** Truth value, as [or] tests it. *)
Definition truthy (v : pyval) : bool :=
  match v with
  | PyNone => false
  | PyBool b => b
  | PyInt n => negb (n =? 0)%Z
  | PyFloatV x => PyFloat.truthy x
  | PyStr s => match s with EmptyString => false | _ => true end
  | PyList l => match l with [] => false | _ => true end
  | PyDict d => match d with [] => false | _ => true end
  end.

(** [a or b]. *)
Definition py_or (a b : pyval) : pyval := if truthy a then a else b.

Fixpoint lookup (k : string) (d : list (string * pyval)) : option pyval :=
  match d with
  | [] => None
  | (k', v) :: d' => if (k =? k')%string then Some v else lookup k d'
  end.

(** [d.get(k)]: the value, or [None]. *)
Definition dict_get (d : list (string * pyval)) (k : string) : pyval :=
  match lookup k d with
  | Some v => v
  | None => PyNone
  end.

(** [str(n)] of an [int]. *)
Definition str_of_int (n : Z) : string := NilZero.string_of_int (Z.to_int n).

(** ** logwell.errors *)

(** Modelled from the spec: [logwell.errors] is not among the sources.
    The error kinds are the five the transport names (section 7 of the
    specification lists the same five). *)
Inductive LogwellErrorCode : Type :=
| NETWORK_ERROR
| UNAUTHORIZED
| VALIDATION_ERROR
| RATE_LIMITED
| SERVER_ERROR.

(** Modelled from the spec: [LogwellError] is declared in [logwell.errors],
    not among the sources. The fields are the four positional arguments
    of every construction in the transport, in call order, under the
    specification's names: message, kind, optional HTTP status,
    retryable flag. *)
Record LogwellError : Type := mkLogwellError {
  message : string;
  code : LogwellErrorCode;
  http_status : option Z;
  retryable : bool
}.

(** ** Configuration *)

Record TransportConfig : Type := mkTransportConfig {
  endpoint : string;
  api_key : string;
  max_retries : Z;
  timeout : PyFloat.float
}.

(** The constructor's defaults. *)
Definition TransportConfig_new (endpoint api_key : string) : TransportConfig :=
  mkTransportConfig endpoint api_key 3 PyFloat.lit_30.

(** The three keys of a [LogwellConfig] the transport reads. *)
Record LogwellConfig : Type := mkLogwellConfig {
  lc_endpoint : string;
  lc_api_key : string;
  lc_max_retries : option Z
}.

Definition from_logwell_config (config : LogwellConfig) : TransportConfig :=
  mkTransportConfig
    (lc_endpoint config)
    (lc_api_key config)
    (match lc_max_retries config with Some n => n | None => 3 end)
    PyFloat.lit_30.

(** ** The world around the transport *)

Section Transport.

(** A log entry is an opaque record the transport hands to httpx. *)
Variable LogEntry : Type.

(** [str(v)] of a value that is not a [str], as an f-string renders it. *)
Variable py_format : pyval -> string.

(** The arguments of one [client.post(url, headers=..., json=...)]. *)
Record Request : Type := mkRequest {
  url : string;
  headers : list (string * string);
  json : list LogEntry
}.

(** An [httpx.Response]: its status and what [response.json()] gives,
    [None] when the body does not parse and [json()] raises. *)
Record Response : Type := mkResponse {
  status_code : Z;
  json_body : option pyval
}.

(** httpx: [is_success] is a status from 200 to 299. *)
Definition is_success (r : Response) : bool :=
  (200 <=? status_code r) && (status_code r <=? 299).

(** An [httpx.AsyncClient], by the order of its construction. *)
Record AsyncClient : Type := mkAsyncClient {
  client_id : nat;
  client_timeout : PyFloat.float
}.

(** What one [client.post] ends in. [detail] is [str(e)]. *)
Inductive PostOutcome : Type :=
| Responded (r : Response)
| TimeoutException (detail : string)
| RequestError (detail : string)
| OtherException (name : string).

(** The network answers the [n]-th post; the generator gives the [n]-th
    draw of [random.random()]. *)
Variable network : nat -> Request -> PostOutcome.
Variable random_random : nat -> PyFloat.float.

Inductive Event : Type :=
| EvClientCreated (c : AsyncClient)
| EvClientClosed (c : AsyncClient)
| EvPost (c : AsyncClient) (req : Request)
| EvSleep (secs : PyFloat.float).

Record World : Type := mkWorld {
  trace : list Event;
  clients_made : nat;
  posts_made : nat;
  draws_made : nat
}.

(** The attributes of an [HttpTransport] object. *)
Record HttpTransport : Type := mkHttpTransport {
  _config : TransportConfig;
  _ingest_url : string;
  _client : option AsyncClient
}.

Record Store : Type := mkStore {
  self : HttpTransport;
  world : World
}.

(** ** Coroutines: store passing with exceptions *)

Inductive exn : Type :=
| Exc_Logwell (e : LogwellError)
| Exc_Timeout (detail : string)
| Exc_RequestError (detail : string)
| Exc_JSONDecode
| Exc_Overflow
| Exc_Other (name : string).

Inductive outcome (A : Type) : Type :=
| Returned (a : A)
| Raised (e : exn).

Arguments Returned {A} a.
Arguments Raised {A} e.

Definition coro (A : Type) : Type := Store -> outcome A * Store.

Definition ret {A} (a : A) : coro A := fun s => (Returned a, s).

Definition raise {A} (e : exn) : coro A := fun s => (Raised e, s).

Definition bind {A B} (c : coro A) (k : A -> coro B) : coro B :=
  fun s =>
    match c s with
    | (Returned a, s') => k a s'
    | (Raised e, s') => (Raised e, s')
    end.

(** [try: c  except ...: h]; [h e = None] when no clause matches [e]. *)
Definition try_except {A} (c : coro A) (h : exn -> option (coro A)) : coro A :=
  fun s =>
    match c s with
    | (Returned a, s') => (Returned a, s')
    | (Raised e, s') =>
        match h e with
        | Some k => k s'
        | None => (Raised e, s')
        end
    end.

Definition get_self : coro HttpTransport := fun s => (Returned (self s), s).

Definition set_client (c : option AsyncClient) : coro unit :=
  fun s =>
    (Returned tt,
     mkStore (mkHttpTransport (_config (self s)) (_ingest_url (self s)) c)
             (world s)).

Definition emit (ev : Event) (w : World) : World :=
  mkWorld (trace w ++ [ev]) (clients_made w) (posts_made w) (draws_made w).

Notation "x <- c1 ;; c2" := (bind c1 (fun x => c2))
  (at level 61, c1 at next level, right associativity).
Notation "c1 ;; c2" := (bind c1 (fun _ => c2))
  (at level 61, right associativity).

(** *** What the libraries do *)

(** [httpx.AsyncClient(timeout=t)]. *)
Definition AsyncClient_new (t : PyFloat.float) : coro AsyncClient :=
  fun s =>
    let w := world s in
    let c := mkAsyncClient (clients_made w) t in
    (Returned c,
     mkStore (self s)
       (mkWorld (trace w ++ [EvClientCreated c]) (S (clients_made w))
                (posts_made w) (draws_made w))).

(** [client.aclose()]. *)
Definition aclose (c : AsyncClient) : coro unit :=
  fun s => (Returned tt, mkStore (self s) (emit (EvClientClosed c) (world s))).

(** [client.post(url, headers=..., json=...)]: the request goes out, and
    the network decides how the call ends. *)
Definition client_post (c : AsyncClient) (req : Request) : coro Response :=
  fun s =>
    let w := world s in
    let s' :=
      mkStore (self s)
        (mkWorld (trace w ++ [EvPost c req]) (clients_made w)
                 (S (posts_made w)) (draws_made w)) in
    match network (posts_made w) req with
    | Responded r => (Returned r, s')
    | TimeoutException d => (Raised (Exc_Timeout d), s')
    | RequestError d => (Raised (Exc_RequestError d), s')
    | OtherException n => (Raised (Exc_Other n), s')
    end.

(** [random.random()]. *)
Definition random : coro PyFloat.float :=
  fun s =>
    let w := world s in
    (Returned (random_random (draws_made w)),
     mkStore (self s)
       (mkWorld (trace w) (clients_made w) (posts_made w) (S (draws_made w)))).

(** [asyncio.sleep(secs)]. *)
Definition asyncio_sleep (secs : PyFloat.float) : coro unit :=
  fun s => (Returned tt, mkStore (self s) (emit (EvSleep secs) (world s))).

(** [response.json()]. *)
Definition response_json (r : Response) : coro pyval :=
  match json_body r with
  | Some v => ret v
  | None => raise Exc_JSONDecode
  end.

(** ** transport.py *)

(** [min(base_delay * (2**attempt), 10.0)]: the product converts the
    [int] power to a float first. *)
Definition delay_secs (attempt : nat) (base_delay : PyFloat.float)
  : option PyFloat.float :=
  match PyFloat.of_int (2 ^ Z.of_nat attempt) with
  | None => None
  | Some p => Some (PyFloat.min (PyFloat.mul base_delay p) PyFloat.lit_10)
  end.

(** [delay_secs + random.random() * delay_secs * 0.3] for the draw [r]. *)
Definition with_jitter (d r : PyFloat.float) : PyFloat.float :=
  PyFloat.add d (PyFloat.mul (PyFloat.mul r d) PyFloat.lit_0_3).

Definition _delay (attempt : nat) (base_delay : PyFloat.float) : coro unit :=
  match delay_secs attempt base_delay with
  | None => raise Exc_Overflow
  | Some d =>
      r <- random ;;
      asyncio_sleep (with_jitter d r)
  end.

(** [HttpTransport.__init__]. *)
Definition __init__ (config : LogwellConfig + TransportConfig) : HttpTransport :=
  let cfg :=
    match config with
    | inr c => c
    | inl c => from_logwell_config c
    end in
  mkHttpTransport cfg (endpoint cfg ++ "/v1/ingest")%string None.

Definition _get_client : coro AsyncClient :=
  this <- get_self ;;
  match _client this with
  | None =>
      c <- AsyncClient_new (timeout (_config this)) ;;
      set_client (Some c) ;;
      ret c
  | Some c => ret c
  end.

Definition close : coro unit :=
  this <- get_self ;;
  match _client this with
  | Some c =>
      aclose c ;;
      set_client None
  | None => ret tt
  end.

(** An f-string field [{v}]. *)
Definition fstr (v : pyval) : string :=
  match v with
  | PyStr s => s
  | _ => py_format v
  end.

Definition _try_parse_error (response : Response) : pyval :=
  match json_body response with
  | Some (PyDict body) =>
      py_or (dict_get body "message")
        (py_or (dict_get body "error") (PyStr "Unknown error"))
  | _ => PyStr ("HTTP " ++ str_of_int (status_code response))%string
  end.

Definition _create_error (status : Z) (msg : pyval) : LogwellError :=
  if status =? 401 then
    mkLogwellError ("Unauthorized: " ++ fstr msg)%string
      UNAUTHORIZED (Some status) false
  else if status =? 400 then
    mkLogwellError ("Validation error: " ++ fstr msg)%string
      VALIDATION_ERROR (Some status) false
  else if status =? 429 then
    mkLogwellError ("Rate limited: " ++ fstr msg)%string
      RATE_LIMITED (Some status) true
  else if status >=? 500 then
    mkLogwellError ("Server error: " ++ fstr msg)%string
      SERVER_ERROR (Some status) true
  else
    mkLogwellError
      ("HTTP error " ++ str_of_int status ++ ": " ++ fstr msg)%string
      SERVER_ERROR (Some status) false.

(** The request of one attempt. *)
Definition ingest_request (this : HttpTransport) (logs : list LogEntry) : Request :=
  mkRequest (_ingest_url this)
    [("Authorization", ("Bearer " ++ api_key (_config this))%string);
     ("Content-Type", "application/json")]
    logs.

Definition _do_request (logs : list LogEntry) : coro pyval :=
  client <- _get_client ;;
  this <- get_self ;;
  response <-
    try_except (client_post client (ingest_request this logs))
      (fun e =>
         match e with
         | Exc_Timeout d =>
             Some (raise (Exc_Logwell
               (mkLogwellError ("Request timeout: " ++ d)%string
                  NETWORK_ERROR None true)))
         | Exc_RequestError d =>
             Some (raise (Exc_Logwell
               (mkLogwellError ("Network error: " ++ d)%string
                  NETWORK_ERROR None true)))
         | _ => None
         end) ;;
  if negb (is_success response) then
    let error_body := _try_parse_error response in
    raise (Exc_Logwell (_create_error (status_code response) error_body))
  else
    response_json response.

(** [range(n)]. *)
Definition range (n : Z) : list nat := seq 0 (Z.to_nat n).

(** The body of [for attempt in range(...)], then [raise last_error]. *)
Fixpoint send_loop (logs : list LogEntry) (attempts : list nat)
    (last_error : LogwellError) : coro pyval :=
  match attempts with
  | [] => raise (Exc_Logwell last_error)
  | attempt :: rest =>
      try_except (_do_request logs)
        (fun e =>
           match e with
           | Exc_Logwell error =>
               Some (
                 if negb (retryable error) then raise (Exc_Logwell error)
                 else
                   this <- get_self ;;
                   (if Z.of_nat attempt <? max_retries (_config this)
                    then _delay attempt PyFloat.lit_0_1
                    else ret tt) ;;
                   send_loop logs rest error)
           | _ => None
           end)
  end.

Definition send (logs : list LogEntry) : coro pyval :=
  let last_error :=
    mkLogwellError "Max retries exceeded" NETWORK_ERROR None true in
  this <- get_self ;;
  send_loop logs (range (max_retries (_config this) + 1)) last_error.

(** ** Reading a run *)

(** How many posts and how many sleeps a trace holds. *)
Fixpoint posts_in (t : list Event) : nat :=
  match t with
  | [] => 0
  | EvPost _ _ :: t' => S (posts_in t')
  | _ :: t' => posts_in t'
  end.

Fixpoint sleeps_in (t : list Event) : nat :=
  match t with
  | [] => 0
  | EvSleep _ :: t' => S (sleeps_in t')
  | _ :: t' => sleeps_in t'
  end.

(** The requests of a trace, oldest first. *)
Fixpoint requests_in (t : list Event) : list Request :=
  match t with
  | [] => []
  | EvPost _ req :: t' => req :: requests_in t'
  | _ :: t' => requests_in t'
  end.

(** What [_do_request] makes of the way its post ended. *)
Definition attempt_outcome (o : PostOutcome) : outcome pyval :=
  match o with
  | Responded r =>
      if is_success r then
        match json_body r with
        | Some v => Returned v
        | None => Raised Exc_JSONDecode
        end
      else
        Raised (Exc_Logwell (_create_error (status_code r) (_try_parse_error r)))
  | TimeoutException d =>
      Raised (Exc_Logwell
        (mkLogwellError ("Request timeout: " ++ d)%string NETWORK_ERROR None true))
  | RequestError d =>
      Raised (Exc_Logwell
        (mkLogwellError ("Network error: " ++ d)%string NETWORK_ERROR None true))
  | OtherException n => Raised (Exc_Other n)
  end.

(** The store once [_get_client] has run, and the client it returns. *)
Definition ensure_client (s : Store) : AsyncClient * Store :=
  match _client (self s) with
  | Some c => (c, s)
  | None =>
      let w := world s in
      let c := mkAsyncClient (clients_made w) (timeout (_config (self s))) in
      (c,
       mkStore
         (mkHttpTransport (_config (self s)) (_ingest_url (self s)) (Some c))
         (mkWorld (trace w ++ [EvClientCreated c]) (S (clients_made w))
                  (posts_made w) (draws_made w)))
  end.

(** The store once the post of one attempt has gone out. *)
Definition posted (logs : list LogEntry) (s : Store) : Store :=
  let (c, s1) := ensure_client s in
  let w := world s1 in
  mkStore (self s1)
    (mkWorld (trace w ++ [EvPost c (ingest_request (self s1) logs)])
             (clients_made w) (S (posts_made w)) (draws_made w)).

(** The answer the network gives to the next attempt from store [s]. *)
Definition next_exchange (logs : list LogEntry) (s : Store) : PostOutcome :=
  network (posts_made (world s)) (ingest_request (self s) logs).

(** The store once a backoff of [d] seconds before jitter has been slept. *)
Definition slept (d : PyFloat.float) (s : Store) : Store :=
  let w := world s in
  mkStore (self s)
    (mkWorld (trace w ++ [EvSleep (with_jitter d (random_random (draws_made w)))])
             (clients_made w) (posts_made w) (S (draws_made w))).

Lemma posts_in_app (t u : list Event) :
  posts_in (t ++ u) = (posts_in t + posts_in u)%nat.
Proof.
  induction t as [|ev t IH]; simpl; [reflexivity|].
  destruct ev; simpl; rewrite IH; reflexivity.
Qed.

Lemma sleeps_in_app (t u : list Event) :
  sleeps_in (t ++ u) = (sleeps_in t + sleeps_in u)%nat.
Proof.
  induction t as [|ev t IH]; simpl; [reflexivity|].
  destruct ev; simpl; rewrite IH; reflexivity.
Qed.

Lemma requests_in_app (t u : list Event) :
  requests_in (t ++ u) = requests_in t ++ requests_in u.
Proof.
  induction t as [|ev t IH]; simpl; [reflexivity|].
  destruct ev; simpl; rewrite IH; reflexivity.
Qed.

Lemma _get_client_eq (s : Store) :
  _get_client s = (Returned (fst (ensure_client s)), snd (ensure_client s)).
Proof.
  unfold _get_client, ensure_client, bind, get_self.
  destruct (_client (self s)) as [c|]; reflexivity.
Qed.

Lemma _do_request_eq (logs : list LogEntry) (s : Store) :
  _do_request logs s = (attempt_outcome (next_exchange logs s), posted logs s).
Proof.
  unfold _do_request, bind at 1.
  rewrite _get_client_eq.
  unfold posted, next_exchange, ensure_client.
  destruct s as [[cfg u oc] w]; simpl.
  destruct oc as [c|]; simpl;
    unfold bind, get_self, try_except, client_post, ingest_request; simpl;
    match goal with
    | |- context [network ?n ?r] => destruct (network n r) as [r0|d|d|n0]
    end; simpl; try reflexivity;
    unfold response_json, ret, raise;
    destruct (is_success r0); simpl; try reflexivity;
    destruct (json_body r0); reflexivity.
Qed.

(** *** One attempt leaves the configuration alone and posts once *)

Ltac open_store s :=
  let cfg := fresh "cfg" in
  let u := fresh "u" in
  let oc := fresh "oc" in
  let w := fresh "w" in
  destruct s as [[cfg u oc] w]; destruct oc; simpl.

Lemma posted_config (logs : list LogEntry) (s : Store) :
  _config (self (posted logs s)) = _config (self s).
Proof. unfold posted, ensure_client. open_store s; reflexivity. Qed.

Lemma posted_ingest_url (logs : list LogEntry) (s : Store) :
  _ingest_url (self (posted logs s)) = _ingest_url (self s).
Proof. unfold posted, ensure_client. open_store s; reflexivity. Qed.

Lemma posted_client (logs : list LogEntry) (s : Store) :
  _client (self (posted logs s)) = Some (fst (ensure_client s)).
Proof. unfold posted, ensure_client. open_store s; reflexivity. Qed.

Lemma posted_posts_made (logs : list LogEntry) (s : Store) :
  posts_made (world (posted logs s)) = S (posts_made (world s)).
Proof. unfold posted, ensure_client. open_store s; reflexivity. Qed.

Lemma posted_draws_made (logs : list LogEntry) (s : Store) :
  draws_made (world (posted logs s)) = draws_made (world s).
Proof. unfold posted, ensure_client. open_store s; reflexivity. Qed.

Lemma posted_posts_in (logs : list LogEntry) (s : Store) :
  posts_in (trace (world (posted logs s))) = S (posts_in (trace (world s))).
Proof.
  unfold posted, ensure_client.
  open_store s; repeat rewrite posts_in_app; simpl; lia.
Qed.

Lemma posted_sleeps_in (logs : list LogEntry) (s : Store) :
  sleeps_in (trace (world (posted logs s))) = sleeps_in (trace (world s)).
Proof.
  unfold posted, ensure_client.
  open_store s; repeat rewrite sleeps_in_app; simpl; lia.
Qed.

Lemma posted_requests_in (logs : list LogEntry) (s : Store) :
  requests_in (trace (world (posted logs s))) =
  requests_in (trace (world s)) ++ [ingest_request (self s) logs].
Proof.
  unfold posted, ensure_client.
  open_store s; repeat rewrite requests_in_app; simpl;
    rewrite ?app_nil_r; reflexivity.
Qed.

Lemma posted_last_event (logs : list LogEntry) (s : Store) :
  exists t c req, trace (world (posted logs s)) = t ++ [EvPost c req].
Proof.
  unfold posted, ensure_client.
  open_store s; eexists _, _, _; reflexivity.
Qed.

Lemma ingest_request_posted (logs logs' : list LogEntry) (s : Store) :
  ingest_request (self (posted logs' s)) logs = ingest_request (self s) logs.
Proof.
  unfold ingest_request.
  rewrite posted_config, posted_ingest_url; reflexivity.
Qed.

(** *** A backoff draws once and sleeps once *)

Lemma _delay_eq (attempt : nat) (d : PyFloat.float) (s : Store) :
  delay_secs attempt PyFloat.lit_0_1 = Some d ->
  _delay attempt PyFloat.lit_0_1 s = (Returned tt, slept d s).
Proof.
  intros Hd. unfold _delay. rewrite Hd. reflexivity.
Qed.

Lemma _delay_overflow (attempt : nat) (s : Store) :
  delay_secs attempt PyFloat.lit_0_1 = None ->
  _delay attempt PyFloat.lit_0_1 s = (Raised Exc_Overflow, s).
Proof.
  intros Hd. unfold _delay. rewrite Hd. reflexivity.
Qed.

(** The backoff before jitter, attempt by attempt: 0.1 doubled up to
    attempt 6, then the cap of 10 seconds. *)
Definition capped (attempt : nat) : PyFloat.float :=
  if (attempt <? 7)%nat
  then PyFloat.mul PyFloat.lit_0_1 (PyFloat.of_Z (2 ^ Z.of_nat attempt))
  else PyFloat.lit_10.

Definition same_float (a b : option PyFloat.float) : bool :=
  match a, b with
  | Some (S754_finite s m e), Some (S754_finite s' m' e') =>
      Bool.eqb s s' && Pos.eqb m m' && Z.eqb e e'
  | _, _ => false
  end.

Lemma same_float_eq (a : option PyFloat.float) (b : PyFloat.float) :
  same_float a (Some b) = true -> a = Some b.
Proof.
  destruct a as [[| | |s m e]|]; destruct b as [| | |s' m' e'];
    simpl; try discriminate.
  intros H.
  apply andb_prop in H. destruct H as [H He].
  apply andb_prop in H. destruct H as [Hs Hm].
  apply Bool.eqb_prop in Hs. apply Pos.eqb_eq in Hm. apply Z.eqb_eq in He.
  subst. reflexivity.
Qed.

Lemma delay_secs_table :
  forallb (fun a => same_float (delay_secs a PyFloat.lit_0_1) (Some (capped a)))
          (seq 0 1024) = true.
Proof. vm_compute. reflexivity. Qed.

Lemma delay_secs_capped (attempt : nat) :
  (attempt < 1024)%nat ->
  delay_secs attempt PyFloat.lit_0_1 = Some (capped attempt).
Proof.
  intros Ha.
  apply same_float_eq.
  pose proof delay_secs_table as H.
  rewrite forallb_forall in H.
  apply H. apply in_seq. lia.
Qed.

Lemma delay_secs_1024 : delay_secs 1024 PyFloat.lit_0_1 = None.
Proof. vm_compute. reflexivity. Qed.

(** *** One turn of the retry loop *)

Lemma send_loop_returns (logs : list LogEntry) (attempt : nat)
    (rest : list nat) (last_error : LogwellError) (s : Store) (v : pyval) :
  attempt_outcome (next_exchange logs s) = Returned v ->
  send_loop logs (attempt :: rest) last_error s = (Returned v, posted logs s).
Proof.
  intros H. simpl. unfold try_except.
  rewrite _do_request_eq, H. reflexivity.
Qed.

Lemma send_loop_terminal (logs : list LogEntry) (attempt : nat)
    (rest : list nat) (last_error : LogwellError) (s : Store)
    (e : LogwellError) :
  attempt_outcome (next_exchange logs s) = Raised (Exc_Logwell e) ->
  retryable e = false ->
  send_loop logs (attempt :: rest) last_error s =
  (Raised (Exc_Logwell e), posted logs s).
Proof.
  intros H Hr. simpl. unfold try_except.
  rewrite _do_request_eq, H, Hr. reflexivity.
Qed.

Lemma send_loop_escapes (logs : list LogEntry) (attempt : nat)
    (rest : list nat) (last_error : LogwellError) (s : Store) (x : exn) :
  attempt_outcome (next_exchange logs s) = Raised x ->
  (forall e, x <> Exc_Logwell e) ->
  send_loop logs (attempt :: rest) last_error s = (Raised x, posted logs s).
Proof.
  intros H Hx. simpl. unfold try_except.
  rewrite _do_request_eq, H.
  destruct x; try reflexivity.
  exfalso. eapply Hx. reflexivity.
Qed.

Lemma send_loop_backoff (logs : list LogEntry) (attempt : nat)
    (rest : list nat) (last_error : LogwellError) (s : Store)
    (e : LogwellError) (d : PyFloat.float) :
  attempt_outcome (next_exchange logs s) = Raised (Exc_Logwell e) ->
  retryable e = true ->
  Z.of_nat attempt < max_retries (_config (self s)) ->
  delay_secs attempt PyFloat.lit_0_1 = Some d ->
  send_loop logs (attempt :: rest) last_error s =
  send_loop logs rest e (slept d (posted logs s)).
Proof.
  intros H Hr Hlt Hd. simpl. unfold try_except.
  rewrite _do_request_eq, H, Hr. simpl.
  unfold bind at 1, get_self. rewrite posted_config.
  apply Z.ltb_lt in Hlt. rewrite Hlt.
  unfold bind. rewrite (_delay_eq _ _ _ Hd). reflexivity.
Qed.

Lemma send_loop_overflow (logs : list LogEntry) (attempt : nat)
    (rest : list nat) (last_error : LogwellError) (s : Store)
    (e : LogwellError) :
  attempt_outcome (next_exchange logs s) = Raised (Exc_Logwell e) ->
  retryable e = true ->
  Z.of_nat attempt < max_retries (_config (self s)) ->
  delay_secs attempt PyFloat.lit_0_1 = None ->
  send_loop logs (attempt :: rest) last_error s =
  (Raised Exc_Overflow, posted logs s).
Proof.
  intros H Hr Hlt Hd. simpl. unfold try_except.
  rewrite _do_request_eq, H, Hr. simpl.
  unfold bind at 1, get_self. rewrite posted_config.
  apply Z.ltb_lt in Hlt. rewrite Hlt.
  unfold bind. rewrite (_delay_overflow _ _ Hd). reflexivity.
Qed.

Lemma send_loop_no_backoff (logs : list LogEntry) (attempt : nat)
    (rest : list nat) (last_error : LogwellError) (s : Store)
    (e : LogwellError) :
  attempt_outcome (next_exchange logs s) = Raised (Exc_Logwell e) ->
  retryable e = true ->
  max_retries (_config (self s)) <= Z.of_nat attempt ->
  send_loop logs (attempt :: rest) last_error s =
  send_loop logs rest e (posted logs s).
Proof.
  intros H Hr Hge. simpl. unfold try_except.
  rewrite _do_request_eq, H, Hr. simpl.
  unfold bind at 1, get_self. rewrite posted_config.
  apply Z.ltb_ge in Hge. rewrite Hge.
  reflexivity.
Qed.

(** *** Runs of retryable failures *)

(** The answer to the [i]-th attempt counted from store [s]. *)
Definition exchange_at (logs : list LogEntry) (s : Store) (i : nat) : PostOutcome :=
  network (posts_made (world s) + i)%nat (ingest_request (self s) logs).

(** The executor raises a classified, retryable error on this answer. *)
Definition fails_retryably (o : PostOutcome) : Prop :=
  exists e, attempt_outcome o = Raised (Exc_Logwell e) /\ retryable e = true.

(** From [s] to [s']: the configuration is the same, and the trace has
    grown by [posts] posts of the batch and [sleeps] sleeps. *)
Definition advanced (logs : list LogEntry) (posts sleeps : nat)
    (s s' : Store) : Prop :=
  _config (self s') = _config (self s) /\
  _ingest_url (self s') = _ingest_url (self s) /\
  posts_made (world s') = (posts_made (world s) + posts)%nat /\
  posts_in (trace (world s')) = (posts_in (trace (world s)) + posts)%nat /\
  sleeps_in (trace (world s')) = (sleeps_in (trace (world s)) + sleeps)%nat /\
  requests_in (trace (world s')) =
    requests_in (trace (world s)) ++ repeat (ingest_request (self s) logs) posts.

Lemma advanced_posted (logs : list LogEntry) (s : Store) :
  advanced logs 1 0 s (posted logs s).
Proof.
  unfold advanced.
  rewrite posted_config, posted_ingest_url, posted_posts_made,
    posted_posts_in, posted_sleeps_in, posted_requests_in.
  simpl. repeat split; lia.
Qed.

Lemma advanced_slept (logs : list LogEntry) (d : PyFloat.float) (s : Store) :
  advanced logs 0 1 s (slept d s).
Proof.
  unfold advanced, slept; simpl.
  rewrite posts_in_app, sleeps_in_app, requests_in_app; simpl.
  rewrite app_nil_r. repeat split; lia.
Qed.

Lemma advanced_trans (logs : list LogEntry) (p1 p2 n1 n2 : nat)
    (s1 s2 s3 : Store) :
  advanced logs p1 n1 s1 s2 ->
  advanced logs p2 n2 s2 s3 ->
  advanced logs (p1 + p2) (n1 + n2) s1 s3.
Proof.
  unfold advanced.
  intros (Hc1 & Hu1 & Hm1 & Hp1 & Hs1 & Hr1) (Hc2 & Hu2 & Hm2 & Hp2 & Hs2 & Hr2).
  assert (Hreq : ingest_request (self s2) logs = ingest_request (self s1) logs).
  { unfold ingest_request. rewrite Hc1, Hu1. reflexivity. }
  rewrite Hc2, Hu2, Hm2, Hp2, Hs2, Hr2, Hc1, Hu1, Hm1, Hp1, Hs1, Hr1, Hreq.
  rewrite repeat_app, app_assoc.
  repeat split; lia.
Qed.

Lemma send_loop_retries (logs : list LogEntry) (k : nat) :
  forall (a : nat) (rest : list nat) (last_error : LogwellError) (s : Store),
    (forall i, (i < k)%nat -> fails_retryably (exchange_at logs s i)) ->
    (a + k <= 1024)%nat ->
    Z.of_nat (a + k) <= max_retries (_config (self s)) ->
    exists (s' : Store) (last_error' : LogwellError),
      send_loop logs (seq a k ++ rest) last_error s =
        send_loop logs rest last_error' s' /\
      advanced logs k k s s'.
Proof.
  induction k as [|k IH]; intros a rest last_error s Hfail Ha Hmax.
  - exists s, last_error. split; [reflexivity|].
    unfold advanced. simpl. rewrite app_nil_r.
    repeat split; lia.
  - destruct (Hfail 0%nat ltac:(lia)) as (e & He & Hr).
    unfold exchange_at in He. rewrite Nat.add_0_r in He.
    fold (next_exchange logs s) in He.
    set (s1 := slept (capped a) (posted logs s)).
    assert (Hadv : advanced logs 1 1 s s1).
    { change 1%nat with (1 + 0)%nat at 1.
      change 1%nat with (0 + 1)%nat at 2.
      eapply advanced_trans; [apply advanced_posted|apply advanced_slept]. }
    destruct Hadv as (Hc & Hu & Hm & Hp & Hs & Hq).
    destruct (IH (S a) rest e s1) as (s' & last' & Hrun & Hadv').
    + intros i Hi.
      specialize (Hfail (S i) ltac:(lia)).
      unfold exchange_at in *.
      unfold ingest_request in *.
      rewrite Hc, Hu, Hm.
      replace (posts_made (world s) + 1 + i)%nat
        with (posts_made (world s) + S i)%nat by lia.
      exact Hfail.
    + lia.
    + rewrite Hc. lia.
    + exists s', last'. split.
      * simpl seq. simpl app.
        rewrite (send_loop_backoff logs a (seq (S a) k ++ rest) last_error s e
                   (capped a) He Hr); [exact Hrun| lia |].
        apply delay_secs_capped. lia.
      * change (S k) with (1 + k)%nat.
        eapply advanced_trans; [|exact Hadv'].
        unfold advanced. repeat split; assumption.
Qed.

(** *** The attempts of [send] *)

Lemma range_split (n : Z) (k : nat) :
  Z.of_nat k <= n ->
  range (n + 1) = seq 0 k ++ k :: seq (S k) (Z.to_nat n - k).
Proof.
  intros Hk. unfold range.
  replace (Z.to_nat (n + 1)) with (k + S (Z.to_nat n - k))%nat by lia.
  rewrite seq_app. reflexivity.
Qed.

Lemma send_eq (logs : list LogEntry) (s : Store) :
  send logs s =
  send_loop logs (range (max_retries (_config (self s)) + 1))
    (mkLogwellError "Max retries exceeded" NETWORK_ERROR None true) s.
Proof. reflexivity. Qed.

Lemma exchange_at_advanced (logs : list LogEntry) (k m : nat) (s s' : Store) :
  advanced logs k m s s' ->
  next_exchange logs s' = exchange_at logs s k.
Proof.
  intros (Hc & Hu & Hm & _).
  unfold next_exchange, exchange_at, ingest_request.
  rewrite Hc, Hu, Hm. reflexivity.
Qed.

(** From attempt 1024 on the backoff cannot be computed: with 1025 or
    more retries allowed and 1025 retryable failures in a row, [send]
    ends in [OverflowError] after 1025 posts and 1024 sleeps. *)
Lemma send_overflows (logs : list LogEntry) (s : Store) :
  1025 <= max_retries (_config (self s)) ->
  (forall i, (i <= 1024)%nat -> fails_retryably (exchange_at logs s i)) ->
  exists s',
    send logs s = (Raised Exc_Overflow, s') /\
    advanced logs 1025 1024 s s'.
Proof.
  intros Hmax Hfail.
  rewrite send_eq.
  rewrite (range_split _ 1024) by lia.
  destruct (send_loop_retries logs 1024 0
              (1024%nat :: seq 1025 (Z.to_nat (max_retries (_config (self s))) - 1024))
              (mkLogwellError "Max retries exceeded" NETWORK_ERROR None true) s)
    as (s1 & last1 & Hrun & Hadv).
  - intros i Hi. apply Hfail. lia.
  - lia.
  - lia.
  - rewrite Hrun.
    destruct (Hfail 1024%nat (le_n _)) as (e & He & Hr).
    rewrite <- (exchange_at_advanced logs _ _ s s1 Hadv) in He.
    exists (posted logs s1). split.
    + apply (send_loop_overflow logs _ _ _ _ e He Hr).
      * destruct Hadv as (Hc & _). rewrite Hc. lia.
      * apply delay_secs_1024.
    + change 1025%nat with (1024 + 1)%nat.
      change 1024%nat with (1024 + 0)%nat at 2.
      eapply advanced_trans; [exact Hadv|apply advanced_posted].
Qed.

(** After [k] retryable failures in a row, with [k] within the retries
    allowed and no more than 1024, [send] stands at attempt [k]: [k]
    posts and [k] sleeps behind it. *)
Lemma send_reaches (logs : list LogEntry) (s : Store) (k : nat) :
  (k <= 1024)%nat ->
  Z.of_nat k <= max_retries (_config (self s)) ->
  (forall i, (i < k)%nat -> fails_retryably (exchange_at logs s i)) ->
  exists (s_k : Store) (last_error : LogwellError),
    send logs s =
      send_loop logs
        (k :: seq (S k) (Z.to_nat (max_retries (_config (self s))) - k))
        last_error s_k /\
    advanced logs k k s s_k.
Proof.
  intros Hk Hmax Hfail.
  rewrite send_eq, (range_split _ k Hmax).
  apply send_loop_retries; [exact Hfail | lia | lia].
Qed.

Lemma send_loop_nil (logs : list LogEntry) (last_error : LogwellError)
    (s : Store) :
  send_loop logs [] last_error s = (Raised (Exc_Logwell last_error), s).
Proof. reflexivity. Qed.

Lemma advanced_after_attempt (logs : list LogEntry) (k : nat) (s s_k : Store) :
  advanced logs k k s s_k ->
  advanced logs (k + 1) k s (posted logs s_k).
Proof.
  intros Hadv.
  replace k with (k + 0)%nat at 2 by lia.
  eapply advanced_trans; [exact Hadv|apply advanced_posted].
Qed.

(** Retries exhausted: with at most 1024 retries allowed and a retryable
    failure on every attempt, [send] posts [max_retries + 1] times, sleeps
    [max_retries] times, ends on a post, and raises the error of the
    last attempt. *)
Lemma send_exhausts_retries (logs : list LogEntry) (s : Store) (n : nat) :
  max_retries (_config (self s)) = Z.of_nat n ->
  (n <= 1024)%nat ->
  (forall i, (i <= n)%nat -> fails_retryably (exchange_at logs s i)) ->
  exists (e : LogwellError) (s' : Store),
    send logs s = (Raised (Exc_Logwell e), s') /\
    attempt_outcome (exchange_at logs s n) = Raised (Exc_Logwell e) /\
    advanced logs (n + 1) n s s' /\
    exists t c req, trace (world s') = t ++ [EvPost c req].
Proof.
  intros Hmax Hn Hfail.
  destruct (send_reaches logs s n Hn) as (s_n & last_n & Hrun & Hadv).
  - lia.
  - intros i Hi. apply Hfail. lia.
  - destruct (Hfail n (le_n _)) as (e & He & Hr).
    exists e, (posted logs s_n).
    rewrite Hrun.
    rewrite <- (exchange_at_advanced logs _ _ s s_n Hadv) in He.
    rewrite <- (exchange_at_advanced logs _ _ s s_n Hadv).
    split; [|split; [|split]].
    + rewrite (send_loop_no_backoff logs _ _ _ _ e He Hr).
      * rewrite Hmax, Nat2Z.id, Nat.sub_diag. reflexivity.
      * destruct Hadv as (Hc & _). rewrite Hc. lia.
    + exact He.
    + apply advanced_after_attempt, Hadv.
    + apply posted_last_event.
Qed.

(** Success after [k] retryable failures, [k] no more than 1024: the
    value comes back unchanged after [k + 1] posts and [k] sleeps. *)
Lemma send_succeeds_after (logs : list LogEntry) (s : Store) (k : nat)
    (v : pyval) :
  (k <= 1024)%nat ->
  Z.of_nat k <= max_retries (_config (self s)) ->
  (forall i, (i < k)%nat -> fails_retryably (exchange_at logs s i)) ->
  attempt_outcome (exchange_at logs s k) = Returned v ->
  exists s',
    send logs s = (Returned v, s') /\
    advanced logs (k + 1) k s s' /\
    exists t c req, trace (world s') = t ++ [EvPost c req].
Proof.
  intros Hk Hmax Hfail Hok.
  destruct (send_reaches logs s k Hk Hmax Hfail) as (s_k & last_k & Hrun & Hadv).
  exists (posted logs s_k).
  rewrite <- (exchange_at_advanced logs _ _ s s_k Hadv) in Hok.
  split; [|split].
  - rewrite Hrun. apply send_loop_returns, Hok.
  - apply advanced_after_attempt, Hadv.
  - apply posted_last_event.
Qed.

(** A terminal error after [k] retryable failures, [k] no more than
    1024: that error is raised after [k + 1] posts and [k] sleeps. *)
Lemma send_stops_after (logs : list LogEntry) (s : Store) (k : nat)
    (e : LogwellError) :
  (k <= 1024)%nat ->
  Z.of_nat k <= max_retries (_config (self s)) ->
  (forall i, (i < k)%nat -> fails_retryably (exchange_at logs s i)) ->
  attempt_outcome (exchange_at logs s k) = Raised (Exc_Logwell e) ->
  retryable e = false ->
  exists s',
    send logs s = (Raised (Exc_Logwell e), s') /\
    advanced logs (k + 1) k s s' /\
    exists t c req, trace (world s') = t ++ [EvPost c req].
Proof.
  intros Hk Hmax Hfail He Hr.
  destruct (send_reaches logs s k Hk Hmax Hfail) as (s_k & last_k & Hrun & Hadv).
  exists (posted logs s_k).
  rewrite <- (exchange_at_advanced logs _ _ s s_k Hadv) in He.
  split; [|split].
  - rewrite Hrun. apply send_loop_terminal; assumption.
  - apply advanced_after_attempt, Hadv.
  - apply posted_last_event.
Qed.

(** *** Every run of the loop *)

(** One turn of the loop, whatever the answer. *)
Lemma send_loop_turn (logs : list LogEntry) (attempt : nat) (rest : list nat)
    (last_error : LogwellError) (s : Store) :
  send_loop logs (attempt :: rest) last_error s =
  match attempt_outcome (next_exchange logs s) with
  | Returned v => (Returned v, posted logs s)
  | Raised (Exc_Logwell e) =>
      if retryable e then
        if Z.of_nat attempt <? max_retries (_config (self s)) then
          match delay_secs attempt PyFloat.lit_0_1 with
          | Some d => send_loop logs rest e (slept d (posted logs s))
          | None => (Raised Exc_Overflow, posted logs s)
          end
        else send_loop logs rest e (posted logs s)
      else (Raised (Exc_Logwell e), posted logs s)
  | Raised x => (Raised x, posted logs s)
  end.
Proof.
  destruct (attempt_outcome (next_exchange logs s)) as [v|x] eqn:Ho.
  - apply send_loop_returns, Ho.
  - destruct x as [e| | | | |];
      try (apply send_loop_escapes; [exact Ho|intros e0; discriminate]).
    destruct (retryable e) eqn:Hr.
    + destruct (Z.of_nat attempt <? max_retries (_config (self s))) eqn:Hlt.
      * apply Z.ltb_lt in Hlt.
        destruct (delay_secs attempt PyFloat.lit_0_1) as [d|] eqn:Hd.
        -- apply send_loop_backoff; assumption.
        -- apply send_loop_overflow with (e := e); assumption.
      * apply Z.ltb_ge in Hlt.
        apply send_loop_no_backoff; assumption.
    + apply send_loop_terminal; assumption.
Qed.

Lemma advanced_refl (logs : list LogEntry) (s : Store) :
  advanced logs 0 0 s s.
Proof.
  unfold advanced. simpl. rewrite app_nil_r. repeat split; lia.
Qed.

(** However the loop ends, it has posted the same request once per
    attempt made, and nothing else. *)
Lemma send_loop_advanced (logs : list LogEntry) (attempts : list nat) :
  forall (last_error : LogwellError) (s : Store),
  exists p n : nat,
    (p <= length attempts)%nat /\
    advanced logs p n s (snd (send_loop logs attempts last_error s)).
Proof.
  induction attempts as [|attempt rest IH]; intros last_error s.
  - exists 0%nat, 0%nat. split; [simpl; lia|apply advanced_refl].
  - rewrite send_loop_turn.
    assert (Hone : exists p n : nat,
               (p <= length (attempt :: rest))%nat /\
               advanced logs p n s (posted logs s)).
    { exists 1%nat, 0%nat. split; [simpl; lia|apply advanced_posted]. }
    destruct (attempt_outcome (next_exchange logs s)) as [v|x]; [exact Hone|].
    destruct x as [e| | | | |]; try exact Hone.
    destruct (retryable e); [|exact Hone].
    destruct (Z.of_nat attempt <? max_retries (_config (self s))).
    + destruct (delay_secs attempt PyFloat.lit_0_1) as [d|]; [|exact Hone].
      destruct (IH e (slept d (posted logs s))) as (p & n & Hp & Hadv).
      exists (1 + 0 + p)%nat, (0 + 1 + n)%nat. split; [simpl; lia|].
      eapply advanced_trans; [|exact Hadv].
      eapply advanced_trans; [apply advanced_posted|apply advanced_slept].
    + destruct (IH e (posted logs s)) as (p & n & Hp & Hadv).
      exists (1 + p)%nat, (0 + n)%nat. split; [simpl; lia|].
      eapply advanced_trans; [apply advanced_posted|exact Hadv].
Qed.

(** Every classified error the loop raises is the placeholder it was
    given or the error of one of its attempts. *)
Lemma send_loop_error_source (logs : list LogEntry) (attempts : list nat) :
  forall (last_error : LogwellError) (s s' : Store) (e : LogwellError),
    send_loop logs attempts last_error s = (Raised (Exc_Logwell e), s') ->
    e = last_error \/
    exists o, attempt_outcome o = Raised (Exc_Logwell e).
Proof.
  induction attempts as [|attempt rest IH]; intros last_error s s' e Hrun.
  - rewrite send_loop_nil in Hrun. injection Hrun as He _. left. symmetry. exact He.
  - rewrite send_loop_turn in Hrun.
    destruct (attempt_outcome (next_exchange logs s)) as [v|x] eqn:Ho;
      [discriminate|].
    destruct x as [e0| | | | |]; try discriminate.
    assert (Hsrc : exists o, attempt_outcome o = Raised (Exc_Logwell e0))
      by (eexists; exact Ho).
    destruct (retryable e0).
    + destruct (Z.of_nat attempt <? max_retries (_config (self s))).
      * destruct (delay_secs attempt PyFloat.lit_0_1) as [d|]; [|discriminate].
        destruct (IH _ _ _ _ Hrun) as [->|H]; [right; exact Hsrc|right; exact H].
      * destruct (IH _ _ _ _ Hrun) as [->|H]; [right; exact Hsrc|right; exact H].
    + injection Hrun as He _. subst e0. right. exact Hsrc.
Qed.

(** Two stores look the same to the retry loop when they agree on the
    configuration and on how far the network and the generator have
    been used; the client handle and the trace may differ. *)
Definition same_view (s1 s2 : Store) : Prop :=
  _config (self s1) = _config (self s2) /\
  _ingest_url (self s1) = _ingest_url (self s2) /\
  posts_made (world s1) = posts_made (world s2) /\
  draws_made (world s1) = draws_made (world s2).

Lemma same_view_posted (logs : list LogEntry) (s1 s2 : Store) :
  same_view s1 s2 -> same_view (posted logs s1) (posted logs s2).
Proof.
  intros (Hc & Hu & Hp & Hd). unfold same_view.
  rewrite !posted_config, !posted_ingest_url, !posted_posts_made,
    !posted_draws_made.
  repeat split; congruence.
Qed.

Lemma same_view_slept (d : PyFloat.float) (s1 s2 : Store) :
  same_view s1 s2 -> same_view (slept d s1) (slept d s2).
Proof.
  intros (Hc & Hu & Hp & Hd). unfold same_view, slept; simpl.
  repeat split; congruence.
Qed.

Lemma same_view_next_exchange (logs : list LogEntry) (s1 s2 : Store) :
  same_view s1 s2 -> next_exchange logs s1 = next_exchange logs s2.
Proof.
  intros (Hc & Hu & Hp & Hd).
  unfold next_exchange, ingest_request. rewrite Hc, Hu, Hp. reflexivity.
Qed.

Lemma send_loop_same_view (logs : list LogEntry) (attempts : list nat) :
  forall (last_error : LogwellError) (s1 s2 : Store),
    same_view s1 s2 ->
    fst (send_loop logs attempts last_error s1) =
    fst (send_loop logs attempts last_error s2).
Proof.
  induction attempts as [|attempt rest IH]; intros last_error s1 s2 Hv.
  - reflexivity.
  - rewrite !send_loop_turn.
    rewrite (same_view_next_exchange logs s1 s2 Hv).
    destruct Hv as (Hc & Hv').
    rewrite Hc.
    assert (Hv : same_view s1 s2) by (split; assumption).
    destruct (attempt_outcome (next_exchange logs s2)) as [v|x]; [reflexivity|].
    destruct x as [e| | | | |]; try reflexivity.
    destruct (retryable e); [|reflexivity].
    destruct (Z.of_nat attempt <? max_retries (_config (self s2))).
    + destruct (delay_secs attempt PyFloat.lit_0_1) as [d|]; [|reflexivity].
      apply IH, same_view_slept, same_view_posted, Hv.
    + apply IH, same_view_posted, Hv.
Qed.

(** ** The claims *)

(** C1: for every response whose status [s] is not 2xx, [_do_request]
    raises a classified error that carries [s] as its HTTP status, with
    kind and retryable flag as the table gives them: 401 is UNAUTHORIZED
    and terminal, 400 is VALIDATION_ERROR and terminal, 429 is
    RATE_LIMITED and retryable, 500 and above is SERVER_ERROR and
    retryable, anything else is SERVER_ERROR and terminal. *)
Theorem create_error_table (logs : list LogEntry) (s : Store) (r : Response) :
  next_exchange logs s = Responded r ->
  is_success r = false ->
  exists e : LogwellError,
    _do_request logs s = (Raised (Exc_Logwell e), posted logs s) /\
    e = _create_error (status_code r) (_try_parse_error r) /\
    http_status e = Some (status_code r) /\
    (status_code r = 401 -> code e = UNAUTHORIZED /\ retryable e = false) /\
    (status_code r = 400 -> code e = VALIDATION_ERROR /\ retryable e = false) /\
    (status_code r = 429 -> code e = RATE_LIMITED /\ retryable e = true) /\
    (500 <= status_code r -> code e = SERVER_ERROR /\ retryable e = true) /\
    (status_code r <> 401 -> status_code r <> 400 -> status_code r <> 429 ->
     status_code r < 500 ->
     code e = SERVER_ERROR /\ retryable e = false).
Proof.
  intros Hx Hs.
  exists (_create_error (status_code r) (_try_parse_error r)).
  split.
  { rewrite _do_request_eq, Hx. simpl. rewrite Hs. reflexivity. }
  split; [reflexivity|].
  unfold _create_error.
  destruct (Z.eqb_spec (status_code r) 401) as [E401|N401].
  { simpl. repeat split; intros; try reflexivity; lia. }
  destruct (Z.eqb_spec (status_code r) 400) as [E400|N400].
  { simpl. repeat split; intros; try reflexivity; lia. }
  destruct (Z.eqb_spec (status_code r) 429) as [E429|N429].
  { simpl. repeat split; intros; try reflexivity; lia. }
  destruct (Z.geb_spec (status_code r) 500) as [G|L].
  { simpl. repeat split; intros; try reflexivity; lia. }
  simpl. repeat split; intros; try reflexivity; lia.
Qed.

(** C2: the claim fails on the code from 1025 retries on. When every
    attempt fails with a retryable error and [max_retries] is 1025 or
    more, [send] does not make [max_retries + 1] posts and does not
    raise the last classified error: the backoff after attempt 1024
    raises [OverflowError], which leaves [send] after 1025 posts and 1024
    sleeps. *)
Theorem send_all_retryable_overflows (logs : list LogEntry) (s : Store) :
  1025 <= max_retries (_config (self s)) ->
  (forall i, Z.of_nat i <= max_retries (_config (self s)) ->
             fails_retryably (exchange_at logs s i)) ->
  exists s',
    send logs s = (Raised Exc_Overflow, s') /\
    advanced logs 1025 1024 s s' /\
    Z.of_nat (posts_in (trace (world s'))) <
      Z.of_nat (posts_in (trace (world s))) + (max_retries (_config (self s)) + 1).
Proof.
  intros Hmax Hfail.
  destruct (send_overflows logs s Hmax) as (s' & Hrun & Hadv).
  - intros i Hi. apply Hfail. lia.
  - exists s'. split; [exact Hrun|]. split; [exact Hadv|].
    destruct Hadv as (_ & _ & _ & Hp & _). rewrite Hp. lia.
Qed.

(** C3: when [_do_request] raises an error whose retryable flag is
    false, the loop raises that same error at once, on whichever attempt
    it stands and however many attempts remain, and so does [send] on
    attempt 0: the store is the one the executor left, with one post
    more and no sleep more than before. *)
Theorem send_terminal_error_immediate (logs : list LogEntry) (s s1 : Store)
    (e : LogwellError) :
  _do_request logs s = (Raised (Exc_Logwell e), s1) ->
  retryable e = false ->
  (forall attempt rest last_error,
     send_loop logs (attempt :: rest) last_error s =
     (Raised (Exc_Logwell e), s1)) /\
  (0 <= max_retries (_config (self s)) ->
   send logs s = (Raised (Exc_Logwell e), s1)) /\
  posts_in (trace (world s1)) = S (posts_in (trace (world s))) /\
  sleeps_in (trace (world s1)) = sleeps_in (trace (world s)).
Proof.
  intros Hreq Hr.
  assert (Hloop : forall attempt rest last_error,
             send_loop logs (attempt :: rest) last_error s =
             (Raised (Exc_Logwell e), s1)).
  { intros attempt rest last_error. simpl. unfold try_except.
    rewrite Hreq, Hr. reflexivity. }
  split; [exact Hloop|]. split.
  - intros Hmax. rewrite send_eq, (range_split _ 0) by lia. apply Hloop.
  - rewrite _do_request_eq in Hreq. injection Hreq as _ Hs1. subst s1.
    split; [apply posted_posts_in|apply posted_sleeps_in].
Qed.

(** C5: the claim fails on the code from attempt 1025 on. When the
    attempts before [k] fail with retryable errors and attempt [k]
    would succeed, with [1025 <= k <= max_retries], [send] never makes
    attempt [k]: the backoff after attempt 1024 raises [OverflowError]
    and [send] ends there, after 1025 posts and 1024 sleeps, without
    the success value. *)
Theorem send_late_success_overflows (logs : list LogEntry) (s : Store)
    (k : nat) (v : pyval) :
  (1025 <= k)%nat ->
  Z.of_nat k <= max_retries (_config (self s)) ->
  (forall i, (i < k)%nat -> fails_retryably (exchange_at logs s i)) ->
  attempt_outcome (exchange_at logs s k) = Returned v ->
  exists s',
    send logs s = (Raised Exc_Overflow, s') /\
    advanced logs 1025 1024 s s'.
Proof.
  intros Hk Hmax Hfail _.
  apply send_overflows; [lia|].
  intros i Hi. apply Hfail. lia.
Qed.

(** The message as the specification words it: the [message] field if
    present, else the [error] field if present, else the generic
    string; the generic string too when the body does not parse. *)
Definition spec_error_message (r : Response) : pyval :=
  let generic := PyStr ("HTTP " ++ str_of_int (status_code r))%string in
  match json_body r with
  | Some (PyDict body) =>
      match lookup "message" body with
      | Some v => v
      | None =>
          match lookup "error" body with
          | Some v => v
          | None => generic
          end
      end
  | _ => generic
  end.

Lemma create_error_status (status : Z) (msg : pyval) :
  http_status (_create_error status msg) = Some status.
Proof.
  unfold _create_error.
  destruct (status =? 401); [reflexivity|].
  destruct (status =? 400); [reflexivity|].
  destruct (status =? 429); [reflexivity|].
  destruct (status >=? 500); reflexivity.
Qed.

Lemma attempt_outcome_no_status (o : PostOutcome) (e : LogwellError) :
  attempt_outcome o = Raised (Exc_Logwell e) ->
  http_status e = None ->
  code e = NETWORK_ERROR /\
  exists d, o = TimeoutException d \/ o = RequestError d.
Proof.
  intros Ho Hn.
  destruct o as [r|d|d|n]; simpl in Ho.
  - destruct (is_success r).
    + destruct (json_body r); discriminate.
    + injection Ho as He. subst e.
      rewrite create_error_status in Hn. discriminate.
  - injection Ho as He. subst e. split; [reflexivity|]. exists d. left. reflexivity.
  - injection Ho as He. subst e. split; [reflexivity|]. exists d. right. reflexivity.
  - discriminate.
Qed.

(** C6, as amended: when the body parses to a JSON object, the message
    is its [message] field if that is truthy, else its [error] field if
    that is truthy, else the string [Unknown error]; when the body does
    not parse, or parses to something that is no object, the message is
    [HTTP] followed by the status. A 401 whose body does not parse
    becomes UNAUTHORIZED, terminal, with the message
    [Unauthorized: HTTP 401]. *)
Theorem try_parse_error_cases (r : Response) :
  (forall body, json_body r = Some (PyDict body) ->
     (truthy (dict_get body "message") = true ->
      _try_parse_error r = dict_get body "message") /\
     (truthy (dict_get body "message") = false ->
      truthy (dict_get body "error") = true ->
      _try_parse_error r = dict_get body "error") /\
     (truthy (dict_get body "message") = false ->
      truthy (dict_get body "error") = false ->
      _try_parse_error r = PyStr "Unknown error")) /\
  (json_body r = None ->
   _try_parse_error r = PyStr ("HTTP " ++ str_of_int (status_code r))%string) /\
  (forall v, json_body r = Some v -> (forall body, v <> PyDict body) ->
   _try_parse_error r = PyStr ("HTTP " ++ str_of_int (status_code r))%string) /\
  (status_code r = 401 -> json_body r = None ->
   attempt_outcome (Responded r) =
   Raised (Exc_Logwell
     (mkLogwellError "Unauthorized: HTTP 401" UNAUTHORIZED (Some 401) false))).
Proof.
  split; [|split; [|split]].
  - intros body Hb. unfold _try_parse_error, py_or. rewrite Hb.
    split; [|split].
    + intros ->. reflexivity.
    + intros -> ->. reflexivity.
    + intros -> ->. reflexivity.
  - intros Hb. unfold _try_parse_error. rewrite Hb. reflexivity.
  - intros v Hb Hv. unfold _try_parse_error. rewrite Hb.
    destruct v; try reflexivity.
    exfalso. eapply Hv. reflexivity.
  - intros Hs Hb.
    unfold attempt_outcome, is_success, _try_parse_error.
    rewrite Hb, Hs. reflexivity.
Qed.

(** C7: a post that ends in a timeout or in any other request error
    becomes a NETWORK_ERROR with no HTTP status, retryable; a classified
    error of [_do_request] that has no HTTP status is such a
    NETWORK_ERROR, and one built from a response carries the status of
    that response; every classified error [send] raises with no HTTP
    status is a NETWORK_ERROR. *)
Theorem network_error_only_without_status (logs : list LogEntry) (s : Store) :
  (forall d,
     next_exchange logs s = TimeoutException d \/
     next_exchange logs s = RequestError d ->
     exists e,
       _do_request logs s = (Raised (Exc_Logwell e), posted logs s) /\
       code e = NETWORK_ERROR /\ http_status e = None /\ retryable e = true) /\
  (forall e s',
     _do_request logs s = (Raised (Exc_Logwell e), s') ->
     (http_status e = None ->
      code e = NETWORK_ERROR /\
      exists d, next_exchange logs s = TimeoutException d \/
                next_exchange logs s = RequestError d) /\
     (forall r, next_exchange logs s = Responded r ->
                http_status e = Some (status_code r))) /\
  (forall e s',
     send logs s = (Raised (Exc_Logwell e), s') ->
     http_status e = None -> code e = NETWORK_ERROR).
Proof.
  split; [|split].
  - intros d [H|H]; rewrite _do_request_eq, H; simpl;
      eexists; (split; [reflexivity|]); repeat split.
  - intros e s' Hreq. rewrite _do_request_eq in Hreq.
    injection Hreq as Ho _. split.
    + intros Hn. apply (attempt_outcome_no_status _ _ Ho Hn).
    + intros r Hx. rewrite Hx in Ho. simpl in Ho.
      destruct (is_success r).
      * destruct (json_body r); discriminate.
      * injection Ho as He. subst e. apply create_error_status.
  - intros e s' Hrun Hn. rewrite send_eq in Hrun.
    destruct (send_loop_error_source _ _ _ _ _ _ Hrun) as [->|(o & Ho)].
    + reflexivity.
    + apply (attempt_outcome_no_status _ _ Ho Hn).
Qed.

(** A transport as [__init__] builds it, seen at any later time: same
    configuration and URL, the client handle whatever it has become. *)
Definition in_use (t : HttpTransport) (oc : option AsyncClient) : HttpTransport :=
  mkHttpTransport (_config t) (_ingest_url t) oc.

(** C9: a 2xx response whose body does not parse makes [_do_request]
    raise the parser's exception, which is no classified error; the
    loop lets it through on that same attempt, however many attempts
    remain, and so does [send] on attempt 0: one post more, no sleep
    more. *)
Theorem send_unparsable_success_escapes (logs : list LogEntry) (s : Store)
    (r : Response) :
  next_exchange logs s = Responded r ->
  is_success r = true ->
  json_body r = None ->
  _do_request logs s = (Raised Exc_JSONDecode, posted logs s) /\
  (forall attempt rest last_error,
     send_loop logs (attempt :: rest) last_error s =
     (Raised Exc_JSONDecode, posted logs s)) /\
  (0 <= max_retries (_config (self s)) ->
   send logs s = (Raised Exc_JSONDecode, posted logs s)) /\
  posts_in (trace (world (posted logs s))) = S (posts_in (trace (world s))) /\
  sleeps_in (trace (world (posted logs s))) = sleeps_in (trace (world s)) /\
  (forall e, Exc_JSONDecode = Exc_Logwell e -> False).
Proof.
  intros Hx Hs Hb.
  assert (Ho : attempt_outcome (next_exchange logs s) = Raised Exc_JSONDecode).
  { rewrite Hx. simpl. rewrite Hs, Hb. reflexivity. }
  assert (Hloop : forall attempt rest last_error,
             send_loop logs (attempt :: rest) last_error s =
             (Raised Exc_JSONDecode, posted logs s)).
  { intros. apply send_loop_escapes; [exact Ho|intros e; discriminate]. }
  split; [rewrite _do_request_eq, Ho; reflexivity|].
  split; [exact Hloop|].
  split; [intros Hmax; rewrite send_eq, (range_split _ 0) by lia; apply Hloop|].
  split; [apply posted_posts_in|].
  split; [apply posted_sleeps_in|].
  intros e; discriminate.
Qed.

End Transport.

Arguments Returned {A} a.
Arguments Raised {A} e.
Arguments mkRequest {LogEntry} url headers json.
Arguments mkStore {LogEntry} self world.
Arguments mkWorld {LogEntry} trace clients_made posts_made draws_made.
Arguments self {LogEntry} s.
Arguments world {LogEntry} s.
Arguments trace {LogEntry} w.
Arguments posts_made {LogEntry} w.
Arguments draws_made {LogEntry} w.
Arguments slept {LogEntry} random_random d s.
Arguments EvClientCreated {LogEntry} c.
Arguments EvClientClosed {LogEntry} c.
Arguments EvPost {LogEntry} c req.
Arguments EvSleep {LogEntry} secs.
Arguments posts_in {LogEntry} t.
Arguments sleeps_in {LogEntry} t.
Arguments requests_in {LogEntry} t.
Arguments posted {LogEntry} logs s.
Arguments next_exchange {LogEntry} network logs s.
Arguments exchange_at {LogEntry} network logs s i.
Arguments advanced {LogEntry} logs posts sleeps s s'.
Arguments ingest_request {LogEntry} this logs.
Arguments _do_request {LogEntry} py_format network logs.
Arguments send_loop {LogEntry} py_format network random_random logs attempts last_error.
Arguments send {LogEntry} py_format network random_random logs.
Arguments _delay {LogEntry} random_random attempt base_delay.
Arguments close {LogEntry}.
Arguments _get_client {LogEntry}.

(** ** The backoff in binary64 arithmetic

    [spec_float] computes; what follows says what its rounding does to
    a positive mantissa of 53 bits or more above the subnormal range,
    and carries that through the two products and the sum of
    [with_jitter]. *)

(** *** Shifting a mantissa right *)

(** [iter_pos] is plain iteration. *)
Lemma iter_pos_nat {A : Type} (f : A -> A) (p : positive) :
  forall x, iter_pos f p x = Nat.iter (Pos.to_nat p) f x.
Proof.
  induction p as [p IH|p IH|]; intros x; cbn [iter_pos].
  - rewrite !IH, Pos2Nat.inj_xI.
    rewrite <- Nat.iter_succ_r, <- Nat.iter_add.
    f_equal. lia.
  - rewrite !IH, Pos2Nat.inj_xO, <- Nat.iter_add.
    f_equal. lia.
  - reflexivity.
Qed.

(** One shift halves the mantissa, keeps the bit it drops as the round
    bit and folds the old round bit into the sticky bit. *)
Lemma shr_1_spec (m : Z) (r s : bool) :
  0 <= m ->
  shr_1 (Build_shr_record m r s) =
  Build_shr_record (m / 2) (Z.odd m) (r || s).
Proof.
  intros Hm.
  destruct m as [|p|p]; [reflexivity| |lia].
  destruct p as [p|p|]; simpl shr_1; f_equal.
  - rewrite Pos2Z.inj_xI. symmetry.
    rewrite (Z.mul_comm 2), Z.div_add_l by lia. reflexivity.
  - rewrite Pos2Z.inj_xO. symmetry.
    rewrite (Z.mul_comm 2), Z.div_mul by lia. reflexivity.
Qed.

(** [k] shifts divide by [2^k]; round and sticky bits are both clear
    exactly when nothing was lost. *)
Lemma shr_iter (M : Z) (k : nat) :
  0 <= M ->
  let mrs := Nat.iter k shr_1 (Build_shr_record M false false) in
  shr_m mrs = M / 2 ^ Z.of_nat k /\
  (shr_r mrs || shr_s mrs = false <-> M mod 2 ^ Z.of_nat k = 0).
Proof.
  intros HM. induction k as [|k IH].
  - simpl. rewrite Z.div_1_r, Z.mod_1_r. split; [reflexivity|]. split; reflexivity.
  - cbn zeta in *. rewrite Nat.iter_succ.
    destruct (Nat.iter k shr_1 (Build_shr_record M false false)) as [m r s].
    simpl in IH. destruct IH as [Hm Hrs].
    assert (H2k : 0 < 2 ^ Z.of_nat k) by (apply Z.pow_pos_nonneg; lia).
    assert (Hm0 : 0 <= m) by (subst m; apply Z.div_pos; lia).
    rewrite (shr_1_spec m r s Hm0). cbn [shr_m shr_r shr_s].
    rewrite Nat2Z.inj_succ, Z.pow_succ_r by lia.
    split.
    + subst m. rewrite Z.div_div by lia. f_equal. lia.
    + rewrite (Z.mul_comm 2), Z.rem_mul_r by lia.
      rewrite <- Hm.
      pose proof (Z.mod_pos_bound M (2 ^ Z.of_nat k) H2k) as Hb.
      pose proof (Z.mod_pos_bound m 2 ltac:(lia)) as Hb2.
      rewrite Zodd_mod.
      destruct (Z.eqb_spec (m mod 2) 1) as [E1|E1].
      * simpl. split; [discriminate|]. intros H. nia.
      * simpl. rewrite Hrs. split; intros H; [|nia].
        assert (m mod 2 = 0) by lia. nia.
Qed.

(** A mantissa of [d] binary digits lies from [2^(d-1)] up to [2^d]. *)
Lemma digits2_pos_bounds (p : positive) :
  2 ^ (Zpos (digits2_pos p) - 1) <= Zpos p < 2 ^ Zpos (digits2_pos p).
Proof.
  induction p as [p IH|p IH|]; simpl digits2_pos.
  - rewrite Pos2Z.inj_succ. change (Z.pos p~1) with (2 * Z.pos p + 1).
    replace (Z.succ (Zpos (digits2_pos p)) - 1) with (Z.succ (Zpos (digits2_pos p) - 1)) by lia.
    rewrite !Z.pow_succ_r by lia. lia.
  - rewrite Pos2Z.inj_succ. change (Z.pos p~0) with (2 * Z.pos p).
    replace (Z.succ (Zpos (digits2_pos p)) - 1) with (Z.succ (Zpos (digits2_pos p) - 1)) by lia.
    rewrite !Z.pow_succ_r by lia. lia.
  - cbn. lia.
Qed.

(** *** Rounding to 53 bits *)

(** Above the subnormal range a double keeps 53 digits. *)
Lemma fexp_normal (e : Z) : -1074 <= e - 53 -> fexp 53 1024 e = e - 53.
Proof. unfold fexp, emin. lia. Qed.

Lemma digits2_pos_unique (p : positive) (k : Z) :
  2 ^ (k - 1) <= Zpos p < 2 ^ k -> 1 <= k -> Zpos (digits2_pos p) = k.
Proof.
  intros [Hlo Hhi] Hk.
  pose proof (digits2_pos_bounds p) as [Dlo Dhi].
  assert (Zpos (digits2_pos p) - 1 < k).
  { apply (Z.pow_lt_mono_r_iff 2); lia. }
  assert (k - 1 < Zpos (digits2_pos p)).
  { apply (Z.pow_lt_mono_r_iff 2); lia. }
  lia.
Qed.

(** The shift that brings a mantissa to its exponent. *)
Lemma shr_fexp_spec (m : positive) (e : Z) :
  let n := fexp 53 1024 (Zpos (digits2_pos m) + e) - e in
  0 <= n ->
  shr_fexp 53 1024 (Zpos m) e loc_Exact =
  (Nat.iter (Z.to_nat n) shr_1 (Build_shr_record (Zpos m) false false), e + n).
Proof.
  intros n Hn.
  unfold shr_fexp, shr, Zdigits2, shr_record_of_loc.
  fold n.
  destruct n as [|p|p].
  - rewrite Z.add_0_r. reflexivity.
  - rewrite iter_pos_nat. reflexivity.
  - lia.
Qed.

(** Rounding to nearest even keeps the shifted mantissa or adds one,
    and adds one only when a bit was lost. *)
Lemma round_nearest_even_cases (mrs : shr_record) :
  let m1 := round_nearest_even (shr_m mrs) (loc_of_shr_record mrs) in
  m1 = shr_m mrs \/ (m1 = shr_m mrs + 1 /\ shr_r mrs || shr_s mrs = true).
Proof.
  destruct mrs as [m r s]. simpl.
  destruct r, s; simpl; auto.
  destruct (Z.even m); auto.
Qed.

(** A positive double, or infinity when the exponent is out of range. *)
Definition finite_or_overflow (m : positive) (e : Z) : spec_float :=
  if e <=? 971 then S754_finite false m e else S754_infinity false.

(** Rounding a positive mantissa of 53 bits or more, above the
    subnormal range: the mantissa is shifted down to 53 bits and
    rounded to one of its two neighbours, to the lower one when the
    shift loses nothing. *)
Lemma round_aux_spec (M : positive) (E : Z) :
  let n := Zpos (digits2_pos M) - 53 in
  0 <= n -> -1074 <= E + n ->
  exists m1 : positive,
    (Zpos m1 = Zpos M / 2 ^ n \/
     (Zpos m1 = Zpos M / 2 ^ n + 1 /\ Zpos M mod 2 ^ n <> 0)) /\
    2 ^ 52 <= Zpos m1 <= 2 ^ 53 /\
    binary_round_aux 53 1024 false (Zpos M) E loc_Exact =
      if Zpos m1 <? 2 ^ 53 then finite_or_overflow m1 (E + n)
      else finite_or_overflow (Z.to_pos (2 ^ 52)) (E + n + 1).
Proof.
  intros n Hn HE.
  pose proof (digits2_pos_bounds M) as [Dlo Dhi].
  assert (Hd : Zpos (digits2_pos M) = n + 53) by (unfold n; lia).
  rewrite Hd in Dlo, Dhi.
  assert (H2n : 0 < 2 ^ n) by (apply Z.pow_pos_nonneg; lia).
  assert (Hm0 : 2 ^ 52 <= Zpos M / 2 ^ n < 2 ^ 53).
  { replace (n + 53 - 1) with (52 + n) in Dlo by lia.
    rewrite Z.pow_add_r in Dlo, Dhi by lia.
    split.
    - apply Z.div_le_lower_bound; lia.
    - apply Z.div_lt_upper_bound; lia. }
  unfold binary_round_aux.
  rewrite shr_fexp_spec;
    rewrite Hd, fexp_normal by lia;
    replace (n + 53 + E - 53 - E) with n by lia; [|lia].
  destruct (shr_iter (Zpos M) (Z.to_nat n) ltac:(lia)) as [Hsm Hrs].
  rewrite Z2Nat.id in Hsm, Hrs by lia.
  set (mrs := Nat.iter (Z.to_nat n) shr_1 (Build_shr_record (Zpos M) false false)) in *.
  pose proof (round_nearest_even_cases mrs) as Hcases. cbn zeta in Hcases.
  set (r1 := round_nearest_even (shr_m mrs) (loc_of_shr_record mrs)) in *.
  rewrite Hsm in Hcases.
  destruct Hcases as [H1|[H1 Hr]].
  - (* rounded down *)
    destruct r1 as [|m1|m1]; try lia.
    exists m1. split; [left; exact H1|]. split; [lia|].
    assert (Hlt : (Zpos m1 <? 2 ^ 53) = true) by (apply Z.ltb_lt; lia).
    rewrite Hlt.
    rewrite shr_fexp_spec;
      rewrite (digits2_pos_unique m1 53) by lia;
      rewrite fexp_normal by lia;
      replace (53 + (E + n) - 53 - (E + n)) with 0 by lia; [|lia].
    simpl Z.to_nat. simpl Nat.iter. cbn [shr_m].
    rewrite Z.add_0_r.
    reflexivity.
  - (* rounded up *)
    assert (Hne : Zpos M mod 2 ^ n <> 0).
    { intros H0. apply Hrs in H0. rewrite H0 in Hr. discriminate. }
    destruct r1 as [|m1|m1]; try lia.
    exists m1. split; [right; split; [exact H1|exact Hne]|]. split; [lia|].
    destruct (Z.ltb_spec (Zpos m1) (2 ^ 53)) as [Hlt|Hge].
    + rewrite shr_fexp_spec;
        rewrite (digits2_pos_unique m1 53) by lia;
        rewrite fexp_normal by lia;
        replace (53 + (E + n) - 53 - (E + n)) with 0 by lia; [|lia].
      simpl Z.to_nat. simpl Nat.iter. cbn [shr_m].
      rewrite Z.add_0_r.
      reflexivity.
    + assert (Hm1 : Zpos m1 = 2 ^ 53) by lia.
      rewrite shr_fexp_spec;
        rewrite (digits2_pos_unique m1 54) by (rewrite ?Hm1; simpl; lia);
        rewrite fexp_normal by lia;
        replace (54 + (E + n) - 53 - (E + n)) with 1 by lia; [|lia].
      change (Z.to_nat 1) with 1%nat. unfold Nat.iter. cbn [nat_rect].
      rewrite shr_1_spec by lia. cbn [shr_m].
      rewrite Hm1.
      change (2 ^ 53 / 2) with (Zpos (Z.to_pos (2 ^ 52))).
      reflexivity.
Qed.

(** *** Values and their order *)

(** The rational [m * 2^e]. *)
Definition valQ (m e : Z) : Q := (inject_Z m * 2 ^ e)%Q.

Lemma two_pow_pos (e : Z) : (0 < 2 ^ e)%Q.
Proof. apply Qpower_0_lt. reflexivity. Qed.

Lemma valQ_shift (m e k : Z) :
  0 <= k -> (valQ m (e + k) == valQ (m * 2 ^ k) e)%Q.
Proof.
  intros Hk. unfold valQ.
  rewrite Qpower_plus by discriminate.
  rewrite inject_Z_mult, Zpower_Qpower by lia.
  change (inject_Z 2) with 2%Q. ring.
Qed.

Lemma valQ_le_same (a b e : Z) : (valQ a e <= valQ b e)%Q <-> a <= b.
Proof.
  unfold valQ. rewrite Qmult_le_r by apply two_pow_pos.
  rewrite <- Zle_Qle. reflexivity.
Qed.

Lemma valQ_lt_same (a b e : Z) : (valQ a e < valQ b e)%Q <-> a < b.
Proof.
  unfold valQ. rewrite Qmult_lt_r by apply two_pow_pos.
  rewrite <- Zlt_Qlt. reflexivity.
Qed.

(** Comparing at the smaller exponent. *)
Lemma valQ_le_l (a e b f : Z) :
  e <= f -> ((valQ a e <= valQ b f)%Q <-> a <= b * 2 ^ (f - e)).
Proof.
  intros H.
  replace f with (e + (f - e)) at 1 by lia.
  rewrite valQ_shift by lia. apply valQ_le_same.
Qed.

Lemma valQ_le_r (a e b f : Z) :
  f <= e -> ((valQ a e <= valQ b f)%Q <-> a * 2 ^ (e - f) <= b).
Proof.
  intros H.
  replace e with (f + (e - f)) at 1 by lia.
  rewrite valQ_shift by lia. apply valQ_le_same.
Qed.

Lemma valQ_mul (a e b f : Z) :
  (valQ (a * b) (e + f) == valQ a e * valQ b f)%Q.
Proof.
  unfold valQ. rewrite Qpower_plus by discriminate.
  rewrite inject_Z_mult. ring.
Qed.

Lemma valQ_add (a b e : Z) :
  (valQ (a + b) e == valQ a e + valQ b e)%Q.
Proof. unfold valQ. rewrite inject_Z_plus. ring. Qed.

Lemma valQ_pos (m e : Z) : 0 < m -> (0 < valQ m e)%Q.
Proof.
  intros Hm. unfold valQ.
  apply Qmult_lt_0_compat; [|apply two_pow_pos].
  change 0%Q with (inject_Z 0). rewrite <- Zlt_Qlt. exact Hm.
Qed.

(** A double with a full mantissa. *)
Definition normal (m : positive) : Prop := 2 ^ 52 <= Zpos m < 2 ^ 53.

(** The order of doubles with full mantissas is the order of their values. *)
Lemma normal_le_exponent (m1 m2 : positive) (e1 e2 : Z) :
  normal m1 -> normal m2 ->
  (valQ (Zpos m1) e1 <= valQ (Zpos m2) e2)%Q -> e1 <= e2.
Proof.
  intros [L1 U1] [L2 U2] H.
  destruct (Z_le_gt_dec e1 e2) as [Hle|Hgt]; [exact Hle|].
  apply valQ_le_r in H; [|lia].
  assert (2 ^ 1 <= 2 ^ (e1 - e2)) by (apply Z.pow_le_mono_r; lia).
  change (2 ^ 1) with 2 in *. nia.
Qed.

Lemma normal_leb (m1 m2 : positive) (e1 e2 : Z) :
  normal m1 -> normal m2 ->
  (valQ (Zpos m1) e1 <= valQ (Zpos m2) e2)%Q ->
  SFleb (S754_finite false m1 e1) (S754_finite false m2 e2) = true.
Proof.
  intros N1 N2 H.
  pose proof (normal_le_exponent m1 m2 e1 e2 N1 N2 H) as He.
  unfold SFleb, SFcompare.
  destruct (Z.compare_spec e1 e2) as [Heq|Hlt|Hgt]; [|reflexivity|lia].
  subst e2. apply valQ_le_same in H.
  fold (Pos.compare m1 m2).
  destruct (Pos.compare_spec m1 m2) as [E|L|G]; try reflexivity.
  lia.
Qed.

(** One unit in the last place of a full mantissa, relatively: 2^-52. *)
Definition eps : Q := valQ 1 (-52).

(** A mantissa within one part in [2^52] of another, at one exponent. *)
Lemma valQ_relative (a b e : Z) :
  a * 2 ^ 52 <= b * (2 ^ 52 + 1) ->
  (valQ a e <= valQ b e * (1 + eps))%Q.
Proof.
  intros H.
  assert (Ha : (valQ a e == valQ (a * 2 ^ 52) (e - 52))%Q).
  { rewrite <- valQ_shift by lia. replace (e - 52 + 52) with e by lia. reflexivity. }
  assert (Hb : (valQ b e * (1 + eps) == valQ (b * (2 ^ 52 + 1)) (e - 52))%Q).
  { unfold eps, valQ.
    replace (e - 52) with (e + -52) by lia.
    rewrite Qpower_plus by discriminate.
    rewrite inject_Z_mult.
    assert (E1 : (inject_Z 1 * 2 ^ (-52) == 1 # 4503599627370496)%Q) by reflexivity.
    assert (E2 : (inject_Z (2 ^ 52 + 1) * 2 ^ (-52) == 1 + (1 # 4503599627370496))%Q)
      by reflexivity.
    rewrite E1.
    transitivity (inject_Z b * 2 ^ e * (inject_Z (2 ^ 52 + 1) * 2 ^ (-52)))%Q.
    - rewrite E2. reflexivity.
    - ring. }
  rewrite Ha, Hb. apply valQ_le_same. exact H.
Qed.

(** *** What rounding preserves *)

Lemma pow2_split (a b : Z) : 0 <= a -> 0 <= b -> 2 ^ (a + b) = 2 ^ a * 2 ^ b.
Proof. intros. apply Z.pow_add_r; assumption. Qed.

Lemma pow2_double_le (a b : Z) : 0 <= a -> a < b -> 2 * 2 ^ a <= 2 ^ b.
Proof.
  intros Ha Hab.
  replace (2 * 2 ^ a) with (2 ^ (a + 1)) by (rewrite pow2_split by lia; lia).
  apply Z.pow_le_mono_r; lia.
Qed.

(** Rounding a wide positive mantissa: the result is a normal double
    that no representable bound separates from the exact value. *)
Lemma round_aux_bounds (M : positive) (E : Z) :
  let n := Zpos (digits2_pos M) - 53 in
  0 <= n -> -1074 <= E + n <= 970 ->
  exists (m' : positive) (e' : Z),
    binary_round_aux 53 1024 false (Zpos M) E loc_Exact = S754_finite false m' e' /\
    normal m' /\
    E + n <= e' <= E + n + 1 /\
    (forall (B : positive) (F : Z), normal B ->
       (valQ (Zpos M) E <= valQ (Zpos B) F)%Q ->
       (valQ (Zpos m') e' <= valQ (Zpos B) F)%Q) /\
    (forall (B : positive) (F : Z), normal B ->
       (valQ (Zpos B) F <= valQ (Zpos M) E)%Q ->
       (valQ (Zpos B) F <= valQ (Zpos m') e')%Q) /\
    (valQ (Zpos m') e' <= valQ (Zpos M) E * (1 + eps))%Q.
Proof.
  intros n Hn HE.
  destruct (round_aux_spec M E Hn ltac:(lia)) as (m1 & Hm1 & Hb1 & Hres).
  fold n in Hm1, Hres.
  unfold finite_or_overflow in Hres.
  replace (E + n <=? 971) with true in Hres by (symmetry; apply Z.leb_le; lia).
  replace (E + n + 1 <=? 971) with true in Hres by (symmetry; apply Z.leb_le; lia).
  pose proof (digits2_pos_bounds M) as [Dlo Dhi].
  replace (Zpos (digits2_pos M)) with (53 + n) in Dlo, Dhi by (unfold n; lia).
  replace (53 + n - 1) with (52 + n) in Dlo by lia.
  rewrite pow2_split in Dlo, Dhi by lia.
  assert (H2n : 0 < 2 ^ n) by (apply Z.pow_pos_nonneg; lia).
  assert (Hm0 : 2 ^ 52 <= Zpos M / 2 ^ n).
  { apply Z.div_le_lower_bound; lia. }
  pose proof (Z.div_mod (Zpos M) (2 ^ n) ltac:(lia)) as Hdm.
  pose proof (Z.mod_pos_bound (Zpos M) (2 ^ n) H2n) as Hmod.
  (* the result and its value *)
  assert (Hval : exists (m' : positive) (e' : Z),
             binary_round_aux 53 1024 false (Zpos M) E loc_Exact =
               S754_finite false m' e' /\
             normal m' /\ E + n <= e' <= E + n + 1 /\
             (valQ (Zpos m') e' == valQ (Zpos m1) (E + n))%Q).
  { destruct (Z.ltb_spec (Zpos m1) (2 ^ 53)) as [Hlt|Hge].
    - exists m1, (E + n). split; [exact Hres|].
      split; [unfold normal; lia|]. split; [lia|reflexivity].
    - exists (Z.to_pos (2 ^ 52)), (E + n + 1). split; [exact Hres|].
      split; [unfold normal; simpl; lia|]. split; [lia|].
      rewrite valQ_shift by lia.
      replace (Zpos m1) with (2 ^ 53) by lia. reflexivity. }
  destruct Hval as (m' & e' & Hr & Hnorm & He' & Hv).
  exists m', e'. split; [exact Hr|]. split; [exact Hnorm|]. split; [exact He'|].
  split; [|split].
  - (* a representable bound above *)
    intros B F [BL BU] H. rewrite Hv.
    assert (HEF : E + n <= F).
    { destruct (Z_le_gt_dec E F) as [Hle|Hgt].
      - apply valQ_le_l in H; [|exact Hle].
        destruct (Z_le_gt_dec (E + n) F) as [Hok|Hbad]; [exact Hok|].
        pose proof (pow2_double_le (F - E) n ltac:(lia) ltac:(lia)).
        assert (0 < 2 ^ (F - E)) by (apply Z.pow_pos_nonneg; lia).
        nia.
      - apply valQ_le_r in H; [|lia].
        pose proof (pow2_double_le 0 (E - F) ltac:(lia) ltac:(lia)) as Hp.
        change (2 ^ 0) with 1 in Hp. nia. }
    apply valQ_le_l in H; [|lia].
    apply valQ_le_l; [exact HEF|].
    replace (F - E) with (F - (E + n) + n) in H by lia.
    rewrite pow2_split in H by lia.
    set (C := Zpos B * 2 ^ (F - (E + n))) in *.
    assert (HC : Zpos M <= C * 2 ^ n) by (unfold C; lia).
    destruct Hm1 as [Hd|[Hu Hne]]; nia.
  - (* a representable bound below *)
    intros B F [BL BU] H. rewrite Hv.
    destruct (Z_le_gt_dec F (E + n)) as [Hle|Hgt].
    + apply valQ_le_l; [exact Hle|].
      destruct (Z.eq_dec F (E + n)) as [Heq|Hneq].
      * replace (E + n - F) with 0 by lia. rewrite Z.mul_1_r.
        apply valQ_le_r in H; [|lia].
        replace (F - E) with n in H by lia.
        destruct Hm1 as [Hd|[Hu Hne]]; nia.
      * pose proof (pow2_double_le 0 (E + n - F) ltac:(lia) ltac:(lia)) as Hp.
        change (2 ^ 0) with 1 in Hp.
        destruct Hm1 as [Hd|[Hu Hne]]; nia.
    + apply valQ_le_r in H; [|lia].
      pose proof (pow2_double_le n (F - E) ltac:(lia) ltac:(lia)) as Hp.
      nia.
  - (* the relative error *)
    rewrite Hv, valQ_shift by lia.
    apply valQ_relative.
    destruct Hm1 as [Hd|[Hu Hne]]; nia.
Qed.

(** *** Products and sums *)

Lemma digits2_pos_ge (p : positive) (k : Z) :
  2 ^ k <= Zpos p -> 0 <= k -> k < Zpos (digits2_pos p).
Proof.
  intros H Hk.
  pose proof (digits2_pos_bounds p) as [_ Dhi].
  apply (Z.pow_lt_mono_r_iff 2); lia.
Qed.

Lemma digits2_pos_le (p : positive) (k : Z) :
  Zpos p < 2 ^ k -> 0 <= k -> Zpos (digits2_pos p) <= k.
Proof.
  intros H Hk.
  pose proof (digits2_pos_bounds p) as [Dlo _].
  assert (Zpos (digits2_pos p) - 1 < k); [|lia].
  apply (Z.pow_lt_mono_r_iff 2); lia.
Qed.

(** The product of two normal doubles, where it neither overflows nor
    falls below the normal range. *)
Lemma mul_bounds (mx my : positive) (ex ey : Z) :
  normal mx -> normal my ->
  -1074 <= ex + ey + 52 -> ex + ey + 53 <= 970 ->
  exists (m' : positive) (e' : Z),
    SFmul 53 1024 (S754_finite false mx ex) (S754_finite false my ey) =
      S754_finite false m' e' /\
    normal m' /\
    ex + ey + 52 <= e' <= ex + ey + 54 /\
    (forall (B : positive) (F : Z), normal B ->
       (valQ (Zpos mx) ex * valQ (Zpos my) ey <= valQ (Zpos B) F)%Q ->
       (valQ (Zpos m') e' <= valQ (Zpos B) F)%Q) /\
    (forall (B : positive) (F : Z), normal B ->
       (valQ (Zpos B) F <= valQ (Zpos mx) ex * valQ (Zpos my) ey)%Q ->
       (valQ (Zpos B) F <= valQ (Zpos m') e')%Q) /\
    (valQ (Zpos m') e' <= valQ (Zpos mx) ex * valQ (Zpos my) ey * (1 + eps))%Q.
Proof.
  intros [Lx Ux] [Ly Uy] Hlo Hhi.
  assert (HP : 2 ^ 104 <= Zpos (mx * my) < 2 ^ 106).
  { rewrite Pos2Z.inj_mul.
    change (2 ^ 104) with (2 ^ 52 * 2 ^ 52).
    change (2 ^ 106) with (2 ^ 53 * 2 ^ 53). nia. }
  pose proof (digits2_pos_ge (mx * my) 104 ltac:(lia) ltac:(lia)) as D1.
  pose proof (digits2_pos_le (mx * my) 106 ltac:(lia) ltac:(lia)) as D2.
  destruct (round_aux_bounds (mx * my) (ex + ey) ltac:(lia) ltac:(lia))
    as (m' & e' & Hr & Hn & He & HU & HL & HR).
  exists m', e'.
  split; [exact Hr|]. split; [exact Hn|]. split; [lia|].
  rewrite Pos2Z.inj_mul, valQ_mul in HR.
  split; [|split; [|exact HR]]; intros B F HB H.
  - apply HU; [exact HB|].
    rewrite Pos2Z.inj_mul, valQ_mul. exact H.
  - apply HL; [exact HB|].
    rewrite Pos2Z.inj_mul, valQ_mul. exact H.
Qed.

(** Aligning a mantissa to a smaller exponent shifts it left. *)
Lemma pos_iter_xO (d m : positive) :
  Zpos (Pos.iter xO m d) = Zpos m * 2 ^ Zpos d.
Proof.
  induction d as [|d IH] using Pos.peano_ind.
  - simpl. lia.
  - rewrite Pos.iter_succ, Pos2Z.inj_succ, Z.pow_succ_r by lia.
    change (Zpos (Pos.iter xO m d)~0) with (2 * Zpos (Pos.iter xO m d)).
    rewrite IH. lia.
Qed.

Lemma shl_align_down (m : positive) (e e' : Z) :
  e' <= e ->
  Zpos (fst (shl_align m e e')) = Zpos m * 2 ^ (e - e').
Proof.
  intros H. unfold shl_align.
  destruct (e' - e) as [|d|d] eqn:Hd; simpl fst.
  - replace (e - e') with 0 by lia. lia.
  - lia.
  - rewrite pos_iter_xO. f_equal. f_equal. lia.
Qed.

Lemma shl_align_keep (m : positive) (e e' : Z) :
  e <= e' -> shl_align m e e' = (m, e).
Proof.
  intros H. unfold shl_align.
  destruct (e' - e) as [|d|d] eqn:Hd; try reflexivity. lia.
Qed.

(** The sum of two normal doubles, the second no larger in exponent. *)
Lemma add_bounds (mx my : positive) (ex ey : Z) :
  normal mx -> normal my ->
  ey <= ex -> -1074 <= ey -> ex + 1 <= 970 ->
  exists (m' : positive) (e' : Z),
    SFadd 53 1024 (S754_finite false mx ex) (S754_finite false my ey) =
      S754_finite false m' e' /\
    normal m' /\
    (forall (B : positive) (F : Z), normal B ->
       (valQ (Zpos mx) ex + valQ (Zpos my) ey <= valQ (Zpos B) F)%Q ->
       (valQ (Zpos m') e' <= valQ (Zpos B) F)%Q) /\
    (forall (B : positive) (F : Z), normal B ->
       (valQ (Zpos B) F <= valQ (Zpos mx) ex + valQ (Zpos my) ey)%Q ->
       (valQ (Zpos B) F <= valQ (Zpos m') e')%Q) /\
    (valQ (Zpos m') e' <= (valQ (Zpos mx) ex + valQ (Zpos my) ey) * (1 + eps))%Q.
Proof.
  intros [Lx Ux] [Ly Uy] Hxy Hlo Hhi.
  unfold SFadd.
  rewrite Z.min_r by lia.
  pose proof (shl_align_down mx ex ey Hxy) as Hax.
  rewrite (shl_align_keep my ey ey) by lia. simpl fst.
  set (ax := fst (shl_align mx ex ey)) in *.
  unfold cond_Zopp.
  change (Zpos ax + Zpos my) with (Zpos (ax + my)).
  unfold binary_normalize, binary_round.
  assert (Hp : 0 < 2 ^ (ex - ey)) by (apply Z.pow_pos_nonneg; lia).
  assert (Hp1 : 1 <= 2 ^ (ex - ey)) by lia.
  assert (HS : Zpos (ax + my) = Zpos mx * 2 ^ (ex - ey) + Zpos my).
  { rewrite Pos2Z.inj_add, Hax. reflexivity. }
  assert (HSlo : 2 ^ (52 + (ex - ey)) <= Zpos (ax + my)).
  { rewrite pow2_split by lia. nia. }
  assert (HShi : Zpos (ax + my) < 2 ^ (54 + (ex - ey))).
  { rewrite pow2_split by lia. change (2 ^ 54) with (2 * 2 ^ 53). nia. }
  pose proof (digits2_pos_ge _ _ HSlo ltac:(lia)) as D1.
  pose proof (digits2_pos_le _ _ HShi ltac:(lia)) as D2.
  rewrite shl_align_keep by (rewrite fexp_normal; lia).
  destruct (round_aux_bounds (ax + my) ey ltac:(lia) ltac:(lia))
    as (m' & e' & Hr & Hn & He & HU & HL & HR).
  exists m', e'.
  split; [exact Hr|]. split; [exact Hn|].
  assert (Hv : (valQ (Zpos (ax + my)) ey ==
                valQ (Zpos mx) ex + valQ (Zpos my) ey)%Q).
  { rewrite HS, valQ_add.
    rewrite <- valQ_shift by lia.
    replace (ey + (ex - ey)) with ex by lia. reflexivity. }
  rewrite Hv in HR.
  split; [|split; [|exact HR]]; intros B F HB H.
  - apply HU; [exact HB|]. rewrite Hv. exact H.
  - apply HL; [exact HB|]. rewrite Hv. exact H.
Qed.

(** *** The duration slept *)

(** [float(2**a)] does not exist from [a = 1024] on. *)
Lemma of_int_pow2_overflow (a : Z) :
  1024 <= a -> PyFloat.of_int (2 ^ a) = None.
Proof.
  intros Ha.
  assert (Hpos : 0 < 2 ^ a) by (apply Z.pow_pos_nonneg; lia).
  destruct (2 ^ a) as [|p|p] eqn:Hp; try lia.
  assert (Hd : Zpos (digits2_pos p) = a + 1).
  { apply digits2_pos_unique; [|lia].
    replace (a + 1 - 1) with a by lia. rewrite <- Hp.
    split; [lia|]. apply Z.pow_lt_mono_r; lia. }
  unfold PyFloat.of_int, PyFloat.of_Z, PyFloat.prec, PyFloat.emax.
  unfold binary_normalize, binary_round.
  rewrite shl_align_keep by (rewrite Hd, fexp_normal; lia).
  destruct (round_aux_spec p 0 ltac:(lia) ltac:(lia)) as (m1 & Hm1 & _ & ->).
  rewrite Hd in Hm1.
  replace (a + 1 - 53) with (a - 52) in Hm1 by lia.
  assert (Hsplit : Zpos p = 2 ^ 52 * 2 ^ (a - 52)).
  { rewrite <- Hp, <- Z.pow_add_r by lia. f_equal. lia. }
  assert (H2n : 0 < 2 ^ (a - 52)) by (apply Z.pow_pos_nonneg; lia).
  assert (Hdiv : Zpos p / 2 ^ (a - 52) = 2 ^ 52).
  { rewrite Hsplit. apply Z.div_mul. lia. }
  assert (Hmod : Zpos p mod 2 ^ (a - 52) = 0).
  { rewrite Hsplit. apply Z.mod_mul. lia. }
  destruct Hm1 as [H1|[_ Hne]]; [|contradiction].
  rewrite H1, Hdiv. simpl (2 ^ 52 <? 2 ^ 53).
  unfold finite_or_overflow.
  replace (0 + (Zpos (digits2_pos p) - 53) <=? 971) with false
    by (symmetry; apply Z.leb_gt; lia).
  reflexivity.
Qed.

(** A draw of [random.random()]: zero, or a normal double from 2^-53
    up to, not including, 1. *)
Definition unit_draw (r : PyFloat.float) : Prop :=
  r = S754_zero false \/
  exists (m : positive) (e : Z),
    r = S754_finite false m e /\ normal m /\ -105 <= e <= -53.

Lemma unit_draw_below_1 (m : positive) (e : Z) :
  normal m -> e <= -53 -> (valQ (Zpos m) e <= 1)%Q.
Proof.
  intros [L U] He.
  assert (H1 : (1 == valQ 1 0)%Q) by reflexivity.
  rewrite H1. apply valQ_le_l; [lia|].
  assert (2 ^ 53 <= 2 ^ (0 - e)) by (apply Z.pow_le_mono_r; lia).
  lia.
Qed.

(** The mantissas and exponents of 0.3, 3.0 and 13.0. *)
Definition m_0_3 : positive := 5404319552844595.
Definition e_0_3 : Z := -54.
Definition m_3 : positive := 6755399441055744.
Definition e_3 : Z := -51.
Definition m_13 : positive := 7318349394477056.
Definition e_13 : Z := -49.

Lemma lit_0_3_eq : PyFloat.lit_0_3 = S754_finite false m_0_3 e_0_3.
Proof. reflexivity. Qed.

Lemma lit_13_eq : PyFloat.lit_13 = S754_finite false m_13 e_13.
Proof. reflexivity. Qed.

(** The slept duration for a backoff [d] of at most 10 seconds and a
    draw below 1: between [d] and 13 seconds. *)
Lemma with_jitter_bounds (md : positive) (ed : Z) (mr : positive) (er : Z) :
  normal md -> -60 <= ed <= -49 ->
  (valQ (Zpos md) ed <= 10)%Q ->
  normal mr -> -105 <= er <= -53 ->
  exists (m' : positive) (e' : Z),
    with_jitter (S754_finite false md ed) (S754_finite false mr er) =
      S754_finite false m' e' /\
    normal m' /\
    (valQ (Zpos md) ed <= valQ (Zpos m') e')%Q /\
    (valQ (Zpos m') e' <= valQ (Zpos m_13) e_13)%Q /\
    (valQ (Zpos m') e' <= valQ (Zpos md) ed * (13 # 10) * (1 + 4 * eps))%Q.
Proof.
  intros Nd Hed Hd10 Nr Her.
  unfold with_jitter, PyFloat.add, PyFloat.mul, PyFloat.prec, PyFloat.emax.
  rewrite lit_0_3_eq.
  pose proof (valQ_pos (Zpos md) ed ltac:(lia)) as Pd.
  pose proof (valQ_pos (Zpos mr) er ltac:(lia)) as Pr.
  pose proof (unit_draw_below_1 mr er Nr ltac:(lia)) as Hr1.
  assert (Nc : normal m_0_3) by (unfold normal, m_0_3; lia).
  assert (N3 : normal m_3) by (unfold normal, m_3; lia).
  assert (N13 : normal m_13) by (unfold normal, m_13; lia).
  assert (Hc : (valQ (Zpos m_0_3) e_0_3 * 10 <= valQ (Zpos m_3) e_3)%Q).
  { vm_compute. discriminate. }
  assert (Hc1 : (valQ (Zpos m_0_3) e_0_3 <= 1)%Q).
  { vm_compute. discriminate. }
  assert (H313 : (10 + valQ (Zpos m_3) e_3 <= valQ (Zpos m_13) e_13)%Q).
  { vm_compute. discriminate. }
  pose proof (valQ_pos (Zpos m_0_3) e_0_3 ltac:(lia)) as Pc.
  (* r * d *)
  destruct (mul_bounds mr md er ed Nr Nd ltac:(lia) ltac:(lia))
    as (m1 & e1 & -> & N1 & He1 & U1 & _ & _).
  assert (B1 : (valQ (Zpos m1) e1 <= valQ (Zpos md) ed)%Q).
  { apply U1; [exact Nd|]. nra. }
  pose proof (valQ_pos (Zpos m1) e1 ltac:(lia)) as P1.
  (* (r * d) * 0.3 *)
  destruct (mul_bounds m1 m_0_3 e1 e_0_3 N1 Nc
              ltac:(unfold e_0_3; lia) ltac:(unfold e_0_3; lia))
    as (m2 & e2 & -> & N2 & He2 & U2 & _ & R2).
  assert (B2d : (valQ (Zpos m2) e2 <= valQ (Zpos md) ed)%Q).
  { apply U2; [exact Nd|]. nra. }
  assert (B23 : (valQ (Zpos m2) e2 <= valQ (Zpos m_3) e_3)%Q).
  { apply U2; [exact N3|]. nra. }
  pose proof (valQ_pos (Zpos m2) e2 ltac:(lia)) as P2.
  pose proof (normal_le_exponent m2 md e2 ed N2 Nd B2d) as He2d.
  (* d + ... *)
  destruct (add_bounds md m2 ed e2 Nd N2 He2d
              ltac:(unfold e_0_3 in He2; lia) ltac:(lia))
    as (m' & e' & -> & N' & U3 & L3 & R3).
  exists m', e'. split; [reflexivity|]. split; [exact N'|].
  split; [|split].
  - apply L3; [exact Nd|]. lra.
  - apply U3; [exact N13|]. lra.
  - assert (Hc3 : (valQ (Zpos m_0_3) e_0_3 <= 3 # 10)%Q).
    { vm_compute. discriminate. }
    assert (Heps : (0 < eps)%Q /\ (eps <= 1)%Q).
    { split; vm_compute; [reflexivity|discriminate]. }
    destruct Heps as [Pe Le].
    set (d := valQ (Zpos md) ed) in *.
    set (t1 := valQ (Zpos m1) e1) in *.
    set (t2 := valQ (Zpos m2) e2) in *.
    set (c := valQ (Zpos m_0_3) e_0_3) in *.
    set (D := valQ (Zpos m') e') in *.
    assert (A1 : (t1 * c <= d * (3 # 10))%Q) by nra.
    assert (A2 : (t2 <= d * (3 # 10) * (1 + eps))%Q) by nra.
    assert (A3 : (D <= (d + d * (3 # 10) * (1 + eps)) * (1 + eps))%Q) by nra.
    nra.
Qed.

(** The rational a double stands for; zero for what is no number. *)
Definition value (x : PyFloat.float) : Q :=
  match x with
  | S754_finite false m e => valQ (Zpos m) e
  | S754_finite true m e => (- valQ (Zpos m) e)%Q
  | _ => 0%Q
  end.

(** What every capped delay is: a normal double of at most 10. *)
Definition well_capped (d : PyFloat.float) : Prop :=
  exists (m : positive) (e : Z),
    d = S754_finite false m e /\ normal m /\ -60 <= e <= -49 /\
    (valQ (Zpos m) e <= 10)%Q.

Lemma capped_well_capped (attempt : nat) : well_capped (capped attempt).
Proof.
  unfold capped.
  destruct (attempt <? 7)%nat eqn:Hlt.
  - apply Nat.ltb_lt in Hlt.
    do 7 (destruct attempt as [|attempt];
          [eexists _, _; split; [vm_compute; reflexivity|];
           split; [unfold normal; lia|]; split; [lia|];
           vm_compute; discriminate|]).
    lia.
  - eexists _, _. split; [reflexivity|].
    split; [unfold normal; lia|]. split; [lia|].
    vm_compute. discriminate.
Qed.

(** The capped delay as a rational: the double 0.1 times [2^attempt]
    while that stays below 10, and 10 from then on. *)
Lemma capped_value (attempt : nat) :
  ((attempt < 7)%nat ->
   (value (capped attempt) == value PyFloat.lit_0_1 * 2 ^ Z.of_nat attempt)%Q /\
   (value PyFloat.lit_0_1 * 2 ^ Z.of_nat attempt <= 10)%Q) /\
  ((7 <= attempt)%nat ->
   (value (capped attempt) == 10)%Q /\
   (10 <= value PyFloat.lit_0_1 * 2 ^ Z.of_nat attempt)%Q).
Proof.
  split.
  - intros Hlt.
    do 7 (destruct attempt as [|attempt];
          [split; vm_compute; [reflexivity|discriminate]|]).
    lia.
  - intros Hge. unfold capped.
    assert (Hf : (attempt <? 7)%nat = false) by (apply Nat.ltb_ge; lia).
    rewrite Hf. split; [reflexivity|].
    assert (H7 : (2 ^ 7 <= 2 ^ Z.of_nat attempt)%Q).
    { apply Qpower_le_compat_l; [lia|discriminate]. }
    assert (H01 : (10 <= value PyFloat.lit_0_1 * 2 ^ 7)%Q).
    { vm_compute. discriminate. }
    assert (P01 : (0 < value PyFloat.lit_0_1)%Q) by reflexivity.
    nra.
Qed.

(** A draw of zero adds no jitter. *)
Lemma with_jitter_zero (m : positive) (e : Z) :
  with_jitter (S754_finite false m e) (S754_zero false) = S754_finite false m e.
Proof. reflexivity. Qed.

(** Whatever the draw, the duration stays between the capped delay and
    13 seconds, is positive, and exceeds 1.3 times the capped delay by
    no more than the rounding of three operations. *)
Lemma with_jitter_capped (attempt : nat) (r : PyFloat.float) :
  unit_draw r ->
  PyFloat.leb (capped attempt) (with_jitter (capped attempt) r) = true /\
  PyFloat.leb (with_jitter (capped attempt) r) PyFloat.lit_13 = true /\
  PyFloat.ltb (S754_zero false) (with_jitter (capped attempt) r) = true /\
  (value (capped attempt) <= value (with_jitter (capped attempt) r))%Q /\
  (value (with_jitter (capped attempt) r) <=
   value (capped attempt) * (13 # 10) * (1 + 4 * eps))%Q.
Proof.
  intros Hr.
  destruct (capped_well_capped attempt) as (md & ed & -> & Nd & Hed & H10).
  assert (N13 : normal m_13) by (unfold normal, m_13; lia).
  assert (H1013 : (10 <= valQ (Zpos m_13) e_13)%Q) by (vm_compute; discriminate).
  pose proof (valQ_pos (Zpos md) ed ltac:(lia)) as Pd.
  assert (Pe : (0 < eps)%Q) by reflexivity.
  destruct Hr as [->|(mr & er & -> & Nr & Her)].
  - rewrite with_jitter_zero. unfold PyFloat.leb, PyFloat.ltb. rewrite lit_13_eq.
    split; [apply normal_leb; [exact Nd|exact Nd|apply Qle_refl]|].
    split; [apply normal_leb; [exact Nd|exact N13|lra]|].
    split; [reflexivity|]. simpl value.
    split; [apply Qle_refl|nra].
  - destruct (with_jitter_bounds md ed mr er Nd Hed H10 Nr Her)
      as (m' & e' & -> & N' & Hlo & Hhi & Hrel).
    unfold PyFloat.leb, PyFloat.ltb. rewrite lit_13_eq.
    split; [apply normal_leb; assumption|].
    split; [apply normal_leb; assumption|].
    split; [reflexivity|]. simpl value.
    split; [exact Hlo|exact Hrel].
Qed.

(** C4: the claim fails on the code from attempt 1024 on. The power
    [2**attempt] is then an [int] too large to convert to a float, so
    [base_delay * (2**attempt)] raises [OverflowError]: nothing is
    drawn and nothing is slept, where the claim has a sleep between 10
    and 13 seconds. *)
Theorem delay_overflows_from_1024 (LogEntry : Type)
    (random_random : nat -> PyFloat.float) (attempt : nat)
    (s : Store LogEntry) :
  (1024 <= attempt)%nat ->
  delay_secs attempt PyFloat.lit_0_1 = None /\
  _delay random_random attempt PyFloat.lit_0_1 s = (Raised Exc_Overflow, s).
Proof.
  intros Ha.
  assert (Hd : delay_secs attempt PyFloat.lit_0_1 = None).
  { unfold delay_secs. rewrite of_int_pow2_overflow by lia. reflexivity. }
  split; [exact Hd|].
  apply _delay_overflow, Hd.
Qed.


(** ** Concrete runs *)

Module Demo.

(** Log entries are opaque to the transport: strings will do. *)
Definition logs : list string := ["boot"; "ready"].

(** [str] of the scalars; the other values do not occur below. *)
Definition format (v : pyval) : string :=
  match v with
  | PyNone => "None"
  | PyBool true => "True"
  | PyBool false => "False"
  | PyInt n => str_of_int n
  | _ => "..."
  end.

(** Every draw is 0.5. *)
Definition draws (n : nat) : PyFloat.float :=
  Eval vm_compute in PyFloat.div (PyFloat.of_Z 1) (PyFloat.of_Z 2).

(** The network gives the same answer to every post. *)
Definition always (o : PostOutcome) (n : nat) (req : Request string) : PostOutcome := o.

(** The network refuses the first [k] posts and then answers [o]. *)
Definition refused_until (k : nat) (o : PostOutcome) (n : nat)
    (req : Request string) : PostOutcome :=
  if (n <? k)%nat then RequestError "connection refused" else o.

Definition config (retries : Z) : TransportConfig :=
  mkTransportConfig "https://logs.example.com" "key-1" retries PyFloat.lit_30.

(** A transport fresh from [__init__], in a world where nothing has
    happened yet. *)
Definition fresh (retries : Z) : Store string :=
  mkStore (__init__ (inr (config retries))) (mkWorld [] 0 0 0).

Definition accepted_10 : pyval :=
  PyDict [("accepted", PyInt 10); ("rejected", PyInt 0)].

Definition ok_200 : Response := mkResponse 200 (Some accepted_10).
Definition forbidden_403 : Response := mkResponse 403 None.
Definition unauthorized_401 : Response := mkResponse 401 None.
Definition garbled_200 : Response := mkResponse 200 None.
Definition empty_object_403 : Response := mkResponse 403 (Some (PyDict [])).
Definition slow_down_429 : Response :=
  mkResponse 429 (Some (PyDict [("error", PyStr "slow down")])).
Definition blank_message_400 : Response :=
  mkResponse 400
    (Some (PyDict [("message", PyStr EmptyString); ("error", PyStr "bad entry")])).

Definition refused : LogwellError :=
  mkLogwellError "Network error: connection refused" NETWORK_ERROR None true.

End Demo.

Lemma refused_fails_retryably :
  fails_retryably Demo.format (RequestError "connection refused").
Proof. exists Demo.refused. split; reflexivity. Defined.

Lemma refused_until_fails (k i : nat) (o : PostOutcome) (s : Store string) :
  (posts_made (world s) + i < k)%nat ->
  fails_retryably Demo.format (exchange_at (Demo.refused_until k o) Demo.logs s i).
Proof.
  intros Hi. unfold exchange_at, Demo.refused_until.
  apply Nat.ltb_lt in Hi. rewrite Hi.
  exact refused_fails_retryably.
Defined.

(** A 403 with an unreadable body: the catch-all row of the table. *)
Lemma create_error_table_witness :
  is_success Demo.forbidden_403 = false /\
  exists e,
    _do_request Demo.format (Demo.always (Responded Demo.forbidden_403))
      Demo.logs (Demo.fresh 3) =
      (Raised (Exc_Logwell e), posted Demo.logs (Demo.fresh 3)) /\
    http_status e = Some 403 /\ code e = SERVER_ERROR /\ retryable e = false.
Proof.
  split; [reflexivity|].
  destruct (create_error_table string Demo.format
              (Demo.always (Responded Demo.forbidden_403))
              Demo.logs (Demo.fresh 3) Demo.forbidden_403 eq_refl eq_refl)
    as (e & Hrun & _ & Hst & _ & _ & _ & _ & Hother).
  exists e. split; [exact Hrun|]. split; [exact Hst|].
  apply Hother; simpl; lia.
Defined.

(** 1025 retries allowed and a network that refuses every connection. *)
Lemma send_all_retryable_overflows_witness :
  exists s',
    send Demo.format (Demo.always (RequestError "connection refused"))
      Demo.draws Demo.logs (Demo.fresh 1025) = (Raised Exc_Overflow, s') /\
    posts_in (trace (world s')) = 1025%nat /\
    sleeps_in (trace (world s')) = 1024%nat.
Proof.
  destruct (send_all_retryable_overflows string Demo.format
              (Demo.always (RequestError "connection refused"))
              Demo.draws Demo.logs (Demo.fresh 1025))
    as (s' & Hrun & Hadv & _).
  - simpl. lia.
  - intros i _. exact refused_fails_retryably.
  - exists s'. split; [exact Hrun|].
    destruct Hadv as (_ & _ & _ & Hp & Hs & _).
    split; [exact Hp|exact Hs].
Defined.

(** A 401 with an unreadable body on the first attempt of four. *)
Lemma send_terminal_error_immediate_witness :
  send Demo.format (Demo.always (Responded Demo.unauthorized_401))
    Demo.draws Demo.logs (Demo.fresh 3) =
  (Raised (Exc_Logwell
     (mkLogwellError "Unauthorized: HTTP 401" UNAUTHORIZED (Some 401) false)),
   posted Demo.logs (Demo.fresh 3)) /\
  posts_in (trace (world (posted Demo.logs (Demo.fresh 3)))) = 1%nat /\
  sleeps_in (trace (world (posted Demo.logs (Demo.fresh 3)))) = 0%nat.
Proof.
  destruct (send_terminal_error_immediate string Demo.format
              (Demo.always (Responded Demo.unauthorized_401))
              Demo.draws Demo.logs (Demo.fresh 3)
              (posted Demo.logs (Demo.fresh 3))
              (mkLogwellError "Unauthorized: HTTP 401" UNAUTHORIZED (Some 401) false)
              eq_refl eq_refl)
    as (_ & Hsend & Hp & Hs).
  split; [apply Hsend; simpl; lia|].
  split; [exact Hp|exact Hs].
Defined.

(** 1025 refusals, then a server that would accept the batch. *)
Lemma send_late_success_overflows_witness :
  attempt_outcome Demo.format
    (exchange_at (Demo.refused_until 1025 (Responded Demo.ok_200))
       Demo.logs (Demo.fresh 1025) 1025) = Returned Demo.accepted_10 /\
  exists s',
    send Demo.format (Demo.refused_until 1025 (Responded Demo.ok_200))
      Demo.draws Demo.logs (Demo.fresh 1025) = (Raised Exc_Overflow, s') /\
    posts_in (trace (world s')) = 1025%nat /\
    sleeps_in (trace (world s')) = 1024%nat.
Proof.
  split; [reflexivity|].
  destruct (send_late_success_overflows string Demo.format
              (Demo.refused_until 1025 (Responded Demo.ok_200))
              Demo.draws Demo.logs (Demo.fresh 1025) 1025 Demo.accepted_10)
    as (s' & Hrun & Hadv).
  - lia.
  - simpl. lia.
  - intros i Hi. apply refused_until_fails. simpl. lia.
  - reflexivity.
  - exists s'. split; [exact Hrun|].
    destruct Hadv as (_ & _ & _ & Hp & Hs & _).
    split; [exact Hp|exact Hs].
Defined.

(** A 200 whose body is no JSON, on the first attempt of four. *)
Lemma send_unparsable_success_escapes_witness :
  send Demo.format (Demo.always (Responded Demo.garbled_200))
    Demo.draws Demo.logs (Demo.fresh 3) =
  (Raised Exc_JSONDecode, posted Demo.logs (Demo.fresh 3)) /\
  posts_in (trace (world (posted Demo.logs (Demo.fresh 3)))) = 1%nat /\
  sleeps_in (trace (world (posted Demo.logs (Demo.fresh 3)))) = 0%nat.
Proof.
  destruct (send_unparsable_success_escapes string Demo.format
              (Demo.always (Responded Demo.garbled_200))
              Demo.draws Demo.logs (Demo.fresh 3) Demo.garbled_200
              eq_refl eq_refl eq_refl)
    as (_ & _ & Hsend & Hp & Hs & _).
  split; [apply Hsend; simpl; lia|].
  split; [exact Hp|exact Hs].
Defined.

(** An object with neither field: the code answers [Unknown error],
    the specification's wording gives [HTTP 403]. *)
Lemma try_parse_error_empty_object :
  _try_parse_error Demo.empty_object_403 = PyStr "Unknown error" /\
  spec_error_message Demo.empty_object_403 = PyStr "HTTP 403" /\
  (_try_parse_error Demo.empty_object_403 =
   spec_error_message Demo.empty_object_403 -> False).
Proof.
  split; [reflexivity|]. split; [reflexivity|].
  intros H. discriminate H.
Qed.

(** A [message] that is present and empty gives way to [error]. *)
Lemma try_parse_error_blank_message :
  _try_parse_error Demo.blank_message_400 = PyStr "bad entry" /\
  spec_error_message Demo.blank_message_400 = PyStr EmptyString.
Proof. split; reflexivity. Qed.

(** The 429 of the specification's scenario. *)
Lemma rate_limited_slow_down :
  attempt_outcome Demo.format (Responded Demo.slow_down_429) =
  Raised (Exc_Logwell
    (mkLogwellError "Rate limited: slow down" RATE_LIMITED (Some 429) true)).
Proof. reflexivity. Qed.

(** Three refusals with three retries allowed, then the retries are
    exhausted on the fourth. *)
Lemma send_exhausts_retries_witness :
  exists s',
    send Demo.format (Demo.always (RequestError "connection refused"))
      Demo.draws Demo.logs (Demo.fresh 3) =
      (Raised (Exc_Logwell Demo.refused), s') /\
    posts_in (trace (world s')) = 4%nat /\
    sleeps_in (trace (world s')) = 3%nat.
Proof.
  destruct (send_exhausts_retries string Demo.format
              (Demo.always (RequestError "connection refused"))
              Demo.draws Demo.logs (Demo.fresh 3) 3)
    as (e & s' & Hrun & He & Hadv & _).
  - reflexivity.
  - lia.
  - intros i _. exact refused_fails_retryably.
  - exists s'.
    injection He as He. subst e.
    split; [exact Hrun|].
    destruct Hadv as (_ & _ & _ & Hp & Hs & _).
    split; [exact Hp|exact Hs].
Defined.

(** The specification's scenario: three retries allowed, a refused
    connection on attempts 0 to 2, ten entries accepted on attempt 3. *)
Lemma send_succeeds_after_witness :
  exists s',
    send Demo.format (Demo.refused_until 3 (Responded Demo.ok_200))
      Demo.draws Demo.logs (Demo.fresh 3) =
      (Returned Demo.accepted_10, s') /\
    posts_in (trace (world s')) = 4%nat /\
    sleeps_in (trace (world s')) = 3%nat.
Proof.
  destruct (send_succeeds_after string Demo.format
              (Demo.refused_until 3 (Responded Demo.ok_200))
              Demo.draws Demo.logs (Demo.fresh 3) 3 Demo.accepted_10)
    as (s' & Hrun & Hadv & _).
  - lia.
  - simpl. lia.
  - intros i Hi. apply refused_until_fails. simpl. lia.
  - reflexivity.
  - exists s'. split; [exact Hrun|].
    destruct Hadv as (_ & _ & _ & Hp & Hs & _).
    split; [exact Hp|exact Hs].
Defined.

(** One refusal, then a 401. *)
Lemma send_stops_after_witness :
  exists s',
    send Demo.format (Demo.refused_until 1 (Responded Demo.unauthorized_401))
      Demo.draws Demo.logs (Demo.fresh 3) =
      (Raised (Exc_Logwell
         (mkLogwellError "Unauthorized: HTTP 401" UNAUTHORIZED (Some 401) false)),
       s') /\
    posts_in (trace (world s')) = 2%nat /\
    sleeps_in (trace (world s')) = 1%nat.
Proof.
  destruct (send_stops_after string Demo.format
              (Demo.refused_until 1 (Responded Demo.unauthorized_401))
              Demo.draws Demo.logs (Demo.fresh 3) 1
              (mkLogwellError "Unauthorized: HTTP 401" UNAUTHORIZED (Some 401) false))
    as (s' & Hrun & Hadv & _).
  - lia.
  - simpl. lia.
  - intros i Hi. apply refused_until_fails. simpl. lia.
  - reflexivity.
  - reflexivity.
  - exists s'. split; [exact Hrun|].
    destruct Hadv as (_ & _ & _ & Hp & Hs & _).
    split; [exact Hp|exact Hs].
Defined.

(** The backoff after attempt 1024. *)
Lemma delay_overflows_from_1024_witness :
  _delay Demo.draws 1024 PyFloat.lit_0_1 (Demo.fresh 1025) =
  (Raised Exc_Overflow, Demo.fresh 1025).
Proof.
  apply (delay_overflows_from_1024 string Demo.draws 1024 (Demo.fresh 1025)).
  lia.
Defined.


(** ** Every run of [send] *)

Arguments clients_made {LogEntry} w.
Arguments ensure_client {LogEntry} s.

Section Runs.

Variable LogEntry : Type.
Variable py_format : pyval -> string.
Variable network : nat -> Request LogEntry -> PostOutcome.
Variable random_random : nat -> PyFloat.float.

(** The error [send] starts from. *)
Definition placeholder : LogwellError :=
  mkLogwellError "Max retries exceeded" NETWORK_ERROR None true.

(** A backoff is computed exactly on attempts 0 to 1023. *)
Lemma delay_secs_some (attempt : nat) (d : PyFloat.float) :
  delay_secs attempt PyFloat.lit_0_1 = Some d ->
  (attempt < 1024)%nat /\ d = capped attempt.
Proof.
  intros Hd.
  destruct (Nat.lt_ge_cases attempt 1024) as [Hlt|Hge].
  - split; [exact Hlt|].
    rewrite (delay_secs_capped attempt Hlt) in Hd. congruence.
  - unfold delay_secs in Hd.
    rewrite of_int_pow2_overflow in Hd by lia. discriminate.
Qed.

Lemma exchange_at_0 (logs : list LogEntry) (s : Store LogEntry) :
  exchange_at network logs s 0 = next_exchange network logs s.
Proof. unfold exchange_at, next_exchange. rewrite Nat.add_0_r. reflexivity. Qed.

Lemma exchange_at_shift (logs : list LogEntry) (s s1 : Store LogEntry)
    (m i : nat) :
  advanced logs 1 m s s1 ->
  exchange_at network logs s1 i = exchange_at network logs s (S i).
Proof.
  intros (Hc & Hu & Hm & _).
  unfold exchange_at, ingest_request. rewrite Hc, Hu, Hm.
  f_equal. lia.
Qed.

Lemma not_retryable_outcome (o : PostOutcome) (x : outcome pyval) :
  attempt_outcome py_format o = x ->
  (forall e, x = Raised (Exc_Logwell e) -> retryable e = false) ->
  ~ fails_retryably py_format o.
Proof.
  intros Ho Hx (e & He & Hr).
  rewrite Ho in He. rewrite (Hx e He) in Hr. discriminate.
Qed.

(** What a run over the attempts [a .. a + k] has done, [a + k] being
    the last attempt allowed: [S q] posts and [q] sleeps, one draw per
    sleep, a post at the end; the attempts before the last one made all
    failed with retryable errors; the outcome is that of the last
    attempt made, or the [OverflowError] of the backoff after it; and a
    retryable failure ends the run only on the last attempt allowed. *)
Definition run_spec (logs : list LogEntry) (a k : nat) (s : Store LogEntry)
    (run : outcome pyval * Store LogEntry) : Prop :=
  exists q : nat,
    (q <= k)%nat /\
    advanced logs (S q) q s (snd run) /\
    draws_made (world (snd run)) = (draws_made (world s) + q)%nat /\
    (exists t c req, trace (world (snd run)) = t ++ [EvPost c req]) /\
    (forall i, (i < q)%nat ->
       fails_retryably py_format (exchange_at network logs s i)) /\
    (fst run = attempt_outcome py_format (exchange_at network logs s q) \/
     (fst run = Raised Exc_Overflow /\
      fails_retryably py_format (exchange_at network logs s q) /\
      (1024 <= a + q)%nat /\ (q < k)%nat)) /\
    (fails_retryably py_format (exchange_at network logs s q) ->
     fst run <> Raised Exc_Overflow -> q = k).

Lemma run_spec_stop (logs : list LogEntry) (a k : nat) (s : Store LogEntry) :
  (fails_retryably py_format (next_exchange network logs s) -> k = 0%nat) ->
  run_spec logs a k s
    (attempt_outcome py_format (next_exchange network logs s), posted logs s).
Proof.
  intros Hk. exists 0%nat. cbn [fst snd].
  rewrite exchange_at_0.
  split; [lia|]. split; [apply advanced_posted|].
  split; [rewrite posted_draws_made; lia|].
  split; [apply posted_last_event|].
  split; [intros i Hi; lia|].
  split; [left; reflexivity|].
  intros Hf _. symmetry. apply Hk, Hf.
Qed.

Lemma run_spec_overflow (logs : list LogEntry) (a k : nat) (s : Store LogEntry) :
  fails_retryably py_format (next_exchange network logs s) ->
  (1024 <= a)%nat -> (0 < k)%nat ->
  run_spec logs a k s (Raised Exc_Overflow, posted logs s).
Proof.
  intros Hf Ha Hk. exists 0%nat. cbn [fst snd].
  rewrite exchange_at_0.
  split; [lia|]. split; [apply advanced_posted|].
  split; [rewrite posted_draws_made; lia|].
  split; [apply posted_last_event|].
  split; [intros i Hi; lia|].
  split; [right; repeat split; [exact Hf|lia|exact Hk]|].
  intros _ Hno. exfalso. apply Hno. reflexivity.
Qed.

Lemma run_spec_step (logs : list LogEntry) (a k : nat) (s : Store LogEntry)
    (d : PyFloat.float) (run : outcome pyval * Store LogEntry) :
  fails_retryably py_format (next_exchange network logs s) ->
  run_spec logs (S a) k (slept random_random d (posted logs s)) run ->
  run_spec logs a (S k) s run.
Proof.
  intros Hf (q & Hq & Hadv & Hdr & Hlast & Hpre & Hout & Hend).
  assert (H1 : advanced logs 1 1 s (slept random_random d (posted logs s))).
  { change 1%nat with (1 + 0)%nat at 1. change 1%nat with (0 + 1)%nat at 2.
    eapply advanced_trans; [apply advanced_posted|apply advanced_slept]. }
  exists (S q).
  split; [lia|].
  split; [change (S (S q)) with (1 + S q)%nat; change (S q) with (1 + q)%nat at 2;
          eapply advanced_trans; [exact H1|exact Hadv]|].
  split.
  { rewrite Hdr. unfold slept. cbn [world draws_made].
    rewrite posted_draws_made. lia. }
  split; [exact Hlast|].
  rewrite (exchange_at_shift logs s _ 1 q H1) in Hout, Hend.
  split.
  { intros i Hi. destruct i as [|i].
    - rewrite exchange_at_0. exact Hf.
    - rewrite <- (exchange_at_shift logs s _ 1 i H1). apply Hpre. lia. }
  split.
  - destruct Hout as [Ho|(Ho & Hfq & Hge & Hlt)]; [left; exact Ho|].
    right. repeat split; [exact Ho|exact Hfq|lia|lia].
  - intros Hfq Hno. f_equal. apply Hend; assumption.
Qed.

Lemma send_loop_run (logs : list LogEntry) (k : nat) :
  forall (a : nat) (last_error : LogwellError) (s : Store LogEntry),
    max_retries (_config (self s)) = Z.of_nat (a + k) ->
    run_spec logs a k s
      (send_loop py_format network random_random logs (seq a (S k)) last_error s).
Proof.
  induction k as [|k IH]; intros a last_error s Hmax;
    cbn [seq]; rewrite send_loop_turn.
  - (* the last attempt allowed *)
    destruct (attempt_outcome py_format (next_exchange network logs s))
      as [v|x] eqn:Ho.
    + rewrite <- Ho. apply run_spec_stop. reflexivity.
    + assert (Hstop : run_spec logs a 0 s (Raised x, posted logs s)).
      { rewrite <- Ho. apply run_spec_stop. reflexivity. }
      destruct x as [e| | | | |]; try exact Hstop.
      destruct (retryable e); [|exact Hstop].
      replace (Z.of_nat a <? max_retries (_config (self s))) with false
        by (symmetry; apply Z.ltb_ge; lia).
      exact Hstop.
  - destruct (attempt_outcome py_format (next_exchange network logs s))
      as [v|x] eqn:Ho.
    + rewrite <- Ho. apply run_spec_stop. intros Hf. exfalso.
      revert Hf. apply (not_retryable_outcome _ _ Ho). intros e H. discriminate H.
    + assert (Hstop : (forall e, x = Exc_Logwell e -> retryable e = false) ->
                      run_spec logs a (S k) s (Raised x, posted logs s)).
      { intros Hx. rewrite <- Ho. apply run_spec_stop. intros Hf. exfalso.
        revert Hf. apply (not_retryable_outcome _ _ Ho).
        intros e H. apply Hx. congruence. }
      destruct x as [e| | | | |];
        try (apply Hstop; intros e0 H; discriminate H).
      destruct (retryable e) eqn:Hr;
        [|apply Hstop; intros e0 H; congruence].
      assert (Hf : fails_retryably py_format (next_exchange network logs s)).
      { exists e. split; assumption. }
      replace (Z.of_nat a <? max_retries (_config (self s))) with true
        by (symmetry; apply Z.ltb_lt; lia).
      destruct (delay_secs a PyFloat.lit_0_1) as [d|] eqn:Hd.
      * apply (run_spec_step logs a k s d _ Hf).
        apply IH. unfold slept. cbn [self].
        rewrite posted_config. lia.
      * apply run_spec_overflow; [exact Hf| |lia].
        destruct (Nat.lt_ge_cases a 1024) as [Hlt|Hge]; [|exact Hge].
        rewrite (delay_secs_capped a Hlt) in Hd. discriminate.
Qed.

Lemma range_succ (n : Z) :
  0 <= n -> range (n + 1) = seq 0 (S (Z.to_nat n)).
Proof.
  intros Hn. unfold range. f_equal. lia.
Qed.

Lemma send_run (logs : list LogEntry) (s : Store LogEntry) :
  0 <= max_retries (_config (self s)) ->
  run_spec logs 0 (Z.to_nat (max_retries (_config (self s)))) s
    (send py_format network random_random logs s).
Proof.
  intros Hmax. rewrite send_eq, range_succ by exact Hmax.
  apply send_loop_run. lia.
Qed.

(** With retries allowed, [send] posts once more than it sleeps, draws
    once per sleep, makes no more than [max_retries + 1] posts, all of
    the batch, and the last thing it does is a post. *)
Theorem send_posts_once_more_than_it_sleeps (logs : list LogEntry)
    (s : Store LogEntry) :
  0 <= max_retries (_config (self s)) ->
  exists q : nat,
    Z.of_nat q <= max_retries (_config (self s)) /\
    advanced logs (S q) q s
      (snd (send py_format network random_random logs s)) /\
    draws_made (world (snd (send py_format network random_random logs s))) =
      (draws_made (world s) + q)%nat /\
    exists t c req,
      trace (world (snd (send py_format network random_random logs s))) =
      t ++ [EvPost c req].
Proof.
  intros Hmax.
  destruct (send_run logs s Hmax) as (q & Hq & Hadv & Hdr & Hlast & _).
  exists q. split; [lia|]. split; [exact Hadv|]. split; [exact Hdr|exact Hlast].
Qed.


Lemma send_no_attempt (logs : list LogEntry) (s : Store LogEntry) :
  max_retries (_config (self s)) < 0 ->
  send py_format network random_random logs s =
  (Raised (Exc_Logwell placeholder), s).
Proof.
  intros Hmax. rewrite send_eq. unfold range.
  replace (Z.to_nat (max_retries (_config (self s)) + 1)) with 0%nat by lia.
  reflexivity.
Qed.

(** With no attempt allowed, a negative [max_retries], [send] posts
    nothing, creates no client, sleeps nothing, and raises the error it
    started from: a retryable NETWORK_ERROR with no HTTP status that no
    exchange with the network stands behind. *)
Theorem send_negative_retries_posts_nothing (logs : list LogEntry)
    (s : Store LogEntry) :
  max_retries (_config (self s)) < 0 ->
  send py_format network random_random logs s =
    (Raised (Exc_Logwell placeholder), s) /\
  message placeholder = "Max retries exceeded" /\
  code placeholder = NETWORK_ERROR /\
  http_status placeholder = None /\
  retryable placeholder = true.
Proof.
  intros Hmax. split; [apply send_no_attempt, Hmax|].
  repeat split.
Qed.

(** *** What leaves [send] unclassified *)

(** An exception a classified error is not. *)
Definition unclassified (x : exn) : Prop := forall e, x <> Exc_Logwell e.

(** An exception that is no classified error, on attempt [k] after [k]
    retryable failures, [k] no more than 1024: it leaves [send] on that
    attempt, after [k + 1] posts and [k] sleeps, the attempts that
    remain unused. *)
Theorem send_escapes_after (logs : list LogEntry) (s : Store LogEntry)
    (k : nat) (x : exn) :
  (k <= 1024)%nat ->
  Z.of_nat k <= max_retries (_config (self s)) ->
  (forall i, (i < k)%nat ->
     fails_retryably py_format (exchange_at network logs s i)) ->
  attempt_outcome py_format (exchange_at network logs s k) = Raised x ->
  unclassified x ->
  exists s',
    send py_format network random_random logs s = (Raised x, s') /\
    advanced logs (k + 1) k s s' /\
    exists t c req, trace (world s') = t ++ [EvPost c req].
Proof.
  intros Hk Hmax Hfail Hx Hun.
  destruct (send_reaches LogEntry py_format network random_random
              logs s k Hk Hmax Hfail) as (s_k & last_k & Hrun & Hadv).
  exists (posted logs s_k).
  rewrite <- (exchange_at_advanced LogEntry network logs _ _ s s_k Hadv) in Hx.
  split; [|split].
  - rewrite Hrun. apply send_loop_escapes; assumption.
  - apply advanced_after_attempt, Hadv.
  - apply posted_last_event.
Qed.


(** *** The client of a run *)

(** What [send] adds to the trace: posts of the one request by the one
    client, and sleeps of a capped delay with its jitter. *)
Definition send_event (c : AsyncClient) (req : Request LogEntry)
    (ev : Event LogEntry) : Prop :=
  ev = EvPost c req \/
  exists (attempt n : nat),
    (attempt < 1024)%nat /\
    ev = EvSleep (with_jitter (capped attempt) (random_random n)).

(** From [s] to [s']: the transport object is the same, no client was
    created, and the trace grew by events of [send_event] only. *)
Definition kept (c : AsyncClient) (req : Request LogEntry)
    (s s' : Store LogEntry) : Prop :=
  self s' = self s /\
  clients_made (world s') = clients_made (world s) /\
  exists ext, trace (world s') = trace (world s) ++ ext /\
              Forall (send_event c req) ext.

Lemma kept_refl (c : AsyncClient) (req : Request LogEntry)
    (s : Store LogEntry) : kept c req s s.
Proof.
  split; [reflexivity|]. split; [reflexivity|].
  exists []. split; [rewrite app_nil_r; reflexivity|constructor].
Qed.

Lemma kept_trans (c : AsyncClient) (req : Request LogEntry)
    (s1 s2 s3 : Store LogEntry) :
  kept c req s1 s2 -> kept c req s2 s3 -> kept c req s1 s3.
Proof.
  intros (Hs1 & Hc1 & e1 & Ht1 & Hf1) (Hs2 & Hc2 & e2 & Ht2 & Hf2).
  split; [congruence|]. split; [congruence|].
  exists (e1 ++ e2). split.
  - rewrite Ht2, Ht1, app_assoc. reflexivity.
  - apply Forall_app. split; assumption.
Qed.

Lemma kept_posted (c : AsyncClient) (logs : list LogEntry)
    (s : Store LogEntry) :
  _client (self s) = Some c ->
  kept c (ingest_request (self s) logs) s (posted logs s).
Proof.
  intros Hc. unfold posted, ensure_client. rewrite Hc. cbn [self world trace clients_made].
  split; [reflexivity|]. split; [reflexivity|].
  eexists. split; [reflexivity|].
  constructor; [left; reflexivity|constructor].
Qed.

Lemma kept_slept (c : AsyncClient) (req : Request LogEntry)
    (attempt : nat) (s : Store LogEntry) :
  (attempt < 1024)%nat ->
  kept c req s (slept random_random (capped attempt) s).
Proof.
  intros Ha. unfold slept. cbn [self world trace clients_made].
  split; [reflexivity|]. split; [reflexivity|].
  eexists. split; [reflexivity|].
  constructor; [|constructor].
  right. exists attempt, (draws_made (world s)). split; [exact Ha|reflexivity].
Qed.

Lemma send_loop_kept (c : AsyncClient) (logs : list LogEntry)
    (attempts : list nat) :
  forall (last_error : LogwellError) (s : Store LogEntry),
    _client (self s) = Some c ->
    kept c (ingest_request (self s) logs) s
      (snd (send_loop py_format network random_random logs attempts
              last_error s)).
Proof.
  induction attempts as [|attempt rest IH]; intros last_error s Hc.
  - apply kept_refl.
  - rewrite send_loop_turn.
    pose proof (kept_posted c logs s Hc) as Hp.
    assert (Hc1 : _client (self (posted logs s)) = Some c).
    { destruct Hp as (Hs & _). rewrite Hs. exact Hc. }
    assert (Hr1 : ingest_request (self (posted logs s)) logs =
                  ingest_request (self s) logs).
    { destruct Hp as (Hs & _). rewrite Hs. reflexivity. }
    destruct (attempt_outcome py_format (next_exchange network logs s))
      as [v|[e| | | | |]]; try exact Hp.
    destruct (retryable e); [|exact Hp].
    destruct (Z.of_nat attempt <? max_retries (_config (self s))).
    + destruct (delay_secs attempt PyFloat.lit_0_1) as [d|] eqn:Hd;
        [|exact Hp].
      destruct (delay_secs_some attempt d Hd) as (Ha & ->).
      apply (kept_trans _ _ _ _ _ Hp).
      apply (kept_trans _ _ _ (slept random_random (capped attempt)
                                 (posted logs s))).
      * apply kept_slept, Ha.
      * rewrite <- Hr1.
        apply (IH e (slept random_random (capped attempt) (posted logs s))).
        exact Hc1.
    + apply (kept_trans _ _ _ _ _ Hp).
      rewrite <- Hr1. apply IH. exact Hc1.
Qed.

Lemma posted_ensure (logs : list LogEntry) (s : Store LogEntry) :
  posted logs (snd (ensure_client s)) = posted logs s.
Proof.
  unfold posted, ensure_client.
  destruct s as [[cfg u [c|]] w]; reflexivity.
Qed.

Lemma ensure_client_view (s : Store LogEntry) :
  _config (self (snd (ensure_client s))) = _config (self s) /\
  _ingest_url (self (snd (ensure_client s))) = _ingest_url (self s) /\
  _client (self (snd (ensure_client s))) =
    Some (fst (ensure_client s)) /\
  posts_made (world (snd (ensure_client s))) = posts_made (world s).
Proof.
  unfold ensure_client.
  destruct s as [[cfg u [c|]] w]; repeat split; reflexivity.
Qed.

Lemma ensure_client_trace (s : Store LogEntry) :
  exists pre,
    trace (world (snd (ensure_client s))) = trace (world s) ++ pre /\
    (pre = [] \/ pre = [EvClientCreated (fst (ensure_client s))]).
Proof.
  unfold ensure_client. destruct (_client (self s)) as [c|].
  - exists []. split; [rewrite app_nil_r; reflexivity|left; reflexivity].
  - eexists. split; [reflexivity|right; reflexivity].
Qed.

(** The first turn of the loop starts by getting the client. *)
Lemma send_loop_ensure (logs : list LogEntry) (attempt : nat)
    (rest : list nat) (last_error : LogwellError) (s : Store LogEntry) :
  send_loop py_format network random_random logs (attempt :: rest)
    last_error s =
  send_loop py_format network random_random logs (attempt :: rest)
    last_error (snd (ensure_client s)).
Proof.
  rewrite !send_loop_turn, posted_ensure.
  destruct (ensure_client_view s) as (Hc & Hu & _ & Hp).
  unfold next_exchange, ingest_request. rewrite Hc, Hu, Hp. reflexivity.
Qed.

Lemma send_kept (logs : list LogEntry) (s : Store LogEntry) :
  0 <= max_retries (_config (self s)) ->
  kept (fst (ensure_client s))
    (ingest_request (self s) logs)
    (snd (ensure_client s))
    (snd (send py_format network random_random logs s)).
Proof.
  intros Hmax.
  rewrite send_eq, range_succ by exact Hmax.
  cbn [seq]. rewrite send_loop_ensure.
  destruct (ensure_client_view s) as (Hc & Hu & Hcl & _).
  replace (ingest_request (self s) logs)
    with (ingest_request (self (snd (ensure_client s))) logs)
    by (unfold ingest_request; rewrite Hc, Hu; reflexivity).
  apply send_loop_kept. exact Hcl.
Qed.

(** With retries allowed, a whole [send] works with one client: the
    one [_get_client] gives at its start, created then if the transport
    had none. After that no client is created and none is closed; every
    event added is a post by that client or a sleep; and the transport
    is left as [_get_client] left it, that client stored. *)
Theorem send_uses_one_client (logs : list LogEntry) (s s0 : Store LogEntry)
    (c : AsyncClient) :
  0 <= max_retries (_config (self s)) ->
  _get_client s = (Returned c, s0) ->
  self (snd (send py_format network random_random logs s)) = self s0 /\
  _client (self s0) = Some c /\
  clients_made (world (snd (send py_format network random_random logs s))) =
    clients_made (world s0) /\
  exists ext,
    trace (world (snd (send py_format network random_random logs s))) =
      trace (world s0) ++ ext /\
    Forall (fun ev => ev = EvPost c (ingest_request (self s) logs) \/
                      exists secs, ev = EvSleep secs) ext.
Proof.
  intros Hmax Hget. rewrite _get_client_eq in Hget.
  injection Hget as Hc Hs0.
  destruct (send_kept logs s Hmax) as (Hself & Hmade & ext & Htr & Hall).
  rewrite Hc, Hs0 in *.
  destruct (ensure_client_view s) as (_ & _ & Hcl & _).
  rewrite Hc, Hs0 in Hcl.
  split; [exact Hself|]. split; [exact Hcl|]. split; [exact Hmade|].
  exists ext. split; [exact Htr|].
  eapply Forall_impl; [|exact Hall].
  intros ev [H|(a & n & _ & H)]; [left; exact H|right; eexists; exact H].
Qed.

(** Whatever the network answers and however many retries are allowed,
    when the draws are in the range of [random.random()], every sleep
    of a [send] lasts more than zero, at least as long as the double
    0.1, and no more than 13 seconds. *)
Theorem send_sleeps_between_100ms_and_13s (logs : list LogEntry)
    (s : Store LogEntry) :
  (forall n, unit_draw (random_random n)) ->
  exists ext,
    trace (world (snd (send py_format network random_random logs s))) =
      trace (world s) ++ ext /\
    forall secs, In (EvSleep secs) ext ->
      PyFloat.ltb (S754_zero false) secs = true /\
      PyFloat.leb secs PyFloat.lit_13 = true /\
      (value PyFloat.lit_0_1 <= value secs)%Q.
Proof.
  intros Hdraw.
  destruct (Z.lt_ge_cases (max_retries (_config (self s))) 0) as [Hneg|Hmax].
  - rewrite send_no_attempt by exact Hneg.
    exists []. split; [rewrite app_nil_r; reflexivity|].
    intros secs [].
  - destruct (send_kept logs s Hmax) as (_ & _ & ext & Htr & Hall).
    destruct (ensure_client_trace s) as (pre & Hpre & Hcases).
    assert (Hno : forall secs, ~ In (EvSleep secs) pre).
    { intros secs Hin. destruct Hcases as [->| ->]; [destruct Hin|].
      destruct Hin as [H|[]]. discriminate H. }
    exists (pre ++ ext). split; [rewrite Htr, Hpre, app_assoc; reflexivity|].
    intros secs Hin. apply in_app_or in Hin.
    destruct Hin as [Hin|Hin]; [exfalso; exact (Hno secs Hin)|].
    rewrite Forall_forall in Hall.
    destruct (Hall _ Hin) as [H|(a & n & Ha & H)]; [discriminate H|].
    injection H as ->.
    destruct (with_jitter_capped a (random_random n) (Hdraw n))
      as (_ & Hhi & Hpos & Hlo & _).
    split; [exact Hpos|]. split; [exact Hhi|].
    apply Qle_trans with (value (capped a)); [|exact Hlo].
    destruct (capped_value a) as (Hsmall & Hbig).
    destruct (Nat.lt_ge_cases a 7) as [H7|H7].
    + destruct (Hsmall H7) as (Hv & _). rewrite Hv.
      assert (P01 : (0 < value PyFloat.lit_0_1)%Q) by reflexivity.
      assert (H1 : (1 <= 2 ^ Z.of_nat a)%Q).
      { change 1%Q with (2 ^ 0)%Q. apply Qpower_le_compat_l; [lia|discriminate]. }
      nra.
    + destruct (Hbig H7) as (Hv & _). rewrite Hv. vm_compute. discriminate.
Qed.

(** *** The events of a run, in order *)

(** What [q] retries add to the trace after the first post: a sleep
    and a post each, the sleep of retry [i] being the backoff of
    attempt [a + i] with the jitter of draw [d + i]. *)
Definition retry_events (c : AsyncClient) (req : Request LogEntry)
    (a d q : nat) : list (Event LogEntry) :=
  flat_map
    (fun i =>
       [EvSleep (with_jitter (capped (a + i)) (random_random (d + i)));
        EvPost c req])
    (seq 0 q).

Lemma retry_events_S (c : AsyncClient) (req : Request LogEntry)
    (a d q : nat) :
  retry_events c req a d (S q) =
  EvSleep (with_jitter (capped a) (random_random d)) ::
  EvPost c req :: retry_events c req (S a) (S d) q.
Proof.
  unfold retry_events. cbn [seq flat_map app].
  rewrite !Nat.add_0_r. f_equal. f_equal.
  rewrite <- seq_shift, flat_map_concat_map, map_map, <- flat_map_concat_map.
  apply flat_map_ext. intros i.
  rewrite !Nat.add_succ_r. reflexivity.
Qed.

Lemma posted_with_client (c : AsyncClient) (logs : list LogEntry)
    (s : Store LogEntry) :
  _client (self s) = Some c ->
  posted logs s =
  mkStore (self s)
    (mkWorld (trace (world s) ++ [EvPost c (ingest_request (self s) logs)])
       (clients_made (world s)) (S (posts_made (world s)))
       (draws_made (world s))).
Proof.
  intros Hc. unfold posted, ensure_client. rewrite Hc. reflexivity.
Qed.

Lemma send_loop_trace (c : AsyncClient) (logs : list LogEntry) (k : nat) :
  forall (a : nat) (last_error : LogwellError) (s : Store LogEntry),
    _client (self s) = Some c ->
    max_retries (_config (self s)) = Z.of_nat (a + k) ->
    exists q : nat,
      (q <= k)%nat /\ (q = 0%nat \/ (a + q <= 1024)%nat) /\
      trace (world (snd (send_loop py_format network random_random logs
                           (seq a (S k)) last_error s))) =
      trace (world s) ++
      EvPost c (ingest_request (self s) logs) ::
      retry_events c (ingest_request (self s) logs) a
        (draws_made (world s)) q.
Proof.
  induction k as [|k IH]; intros a last_error s Hc Hmax;
    cbn [seq]; rewrite send_loop_turn;
    assert (Hstop : exists q : nat,
              (q <= 0)%nat /\ (q = 0%nat \/ (a + q <= 1024)%nat) /\
              trace (world (posted logs s)) =
              trace (world s) ++
              EvPost c (ingest_request (self s) logs) ::
              retry_events c (ingest_request (self s) logs) a
                (draws_made (world s)) q)
      by (exists 0%nat; split; [lia|]; split; [left; reflexivity|];
          rewrite (posted_with_client c logs s Hc); reflexivity).
  - destruct (attempt_outcome py_format (next_exchange network logs s))
      as [v|[e| | | | |]]; try exact Hstop.
    destruct (retryable e); [|exact Hstop].
    replace (Z.of_nat a <? max_retries (_config (self s))) with false
      by (symmetry; apply Z.ltb_ge; lia).
    exact Hstop.
  - assert (Hstop' : exists q : nat,
              (q <= S k)%nat /\ (q = 0%nat \/ (a + q <= 1024)%nat) /\
              trace (world (posted logs s)) =
              trace (world s) ++
              EvPost c (ingest_request (self s) logs) ::
              retry_events c (ingest_request (self s) logs) a
                (draws_made (world s)) q).
    { destruct Hstop as (q & Hq & Hrest). exists q. split; [lia|exact Hrest]. }
    destruct (attempt_outcome py_format (next_exchange network logs s))
      as [v|[e| | | | |]]; try exact Hstop'.
    destruct (retryable e); [|exact Hstop'].
    replace (Z.of_nat a <? max_retries (_config (self s))) with true
      by (symmetry; apply Z.ltb_lt; lia).
    destruct (delay_secs a PyFloat.lit_0_1) as [d|] eqn:Hd; [|exact Hstop'].
    destruct (delay_secs_some a d Hd) as (Ha & ->).
    rewrite (posted_with_client c logs s Hc).
    match goal with
    | |- context [send_loop _ _ _ _ _ _ ?s1] => set (s1' := s1)
    end.
    destruct (IH (S a) e s1') as (q & Hq & Hb & Htr).
    + exact Hc.
    + cbn [s1' slept self]. rewrite Hmax. lia.
    + exists (S q). split; [lia|]. split; [right; lia|].
      cbn [seq] in Htr. rewrite Htr, retry_events_S.
      cbn [s1' slept self world trace draws_made].
      rewrite <- !app_assoc. reflexivity.
Qed.


Lemma close_with_client (c : AsyncClient) (s : Store LogEntry) :
  _client (self s) = Some c ->
  close s =
  (Returned tt,
   mkStore (mkHttpTransport (_config (self s)) (_ingest_url (self s)) None)
     (emit _ (EvClientClosed c) (world s))).
Proof.
  intros Hc. unfold close, bind, get_self. rewrite Hc. reflexivity.
Qed.

(** With retries allowed, [close] after a [send] closes the client that
    [send] worked with: every post and every client creation that
    [send] added to the trace is of the client closed, and the
    transport is left with no client. *)
Theorem close_after_send_closes_its_client (logs : list LogEntry)
    (s : Store LogEntry) :
  0 <= max_retries (_config (self s)) ->
  exists c : AsyncClient,
    fst (close (snd (send py_format network random_random logs s))) =
      Returned tt /\
    _client (self (snd (close
      (snd (send py_format network random_random logs s))))) = None /\
    trace (world (snd (close
      (snd (send py_format network random_random logs s))))) =
      trace (world (snd (send py_format network random_random logs s))) ++
      [EvClientClosed c] /\
    (forall c' req,
       In (EvPost c' req)
          (trace (world (snd (send py_format network random_random logs s)))) ->
       In (EvPost c' req) (trace (world s)) \/ c' = c) /\
    (forall c',
       In (EvClientCreated c')
          (trace (world (snd (send py_format network random_random logs s)))) ->
       In (EvClientCreated c') (trace (world s)) \/ c' = c).
Proof.
  intros Hmax.
  destruct (send_kept logs s Hmax) as (Hself & _ & ext & Htr & Hall).
  destruct (ensure_client_view s) as (_ & _ & Hcl & _).
  destruct (ensure_client_trace s) as (pre & Hpre & Hcases).
  set (c := fst (ensure_client s)) in *.
  set (s1 := snd (send py_format network random_random logs s)) in *.
  assert (Hc1 : _client (self s1) = Some c) by (rewrite Hself; exact Hcl).
  rewrite Forall_forall in Hall.
  exists c. rewrite (close_with_client c s1 Hc1). cbn [fst snd self world].
  split; [reflexivity|]. split; [reflexivity|]. split; [reflexivity|].
  rewrite Htr, Hpre.
  split.
  - intros c' req Hin. apply in_app_or in Hin.
    destruct Hin as [Hin|Hin].
    + apply in_app_or in Hin. destruct Hin as [Hin|Hin]; [left; exact Hin|].
      destruct Hcases as [->| ->]; [destruct Hin|].
      destruct Hin as [H|[]]. discriminate H.
    + destruct (Hall _ Hin) as [H|(a & n & _ & H)]; [|discriminate H].
      right. congruence.
  - intros c' Hin. apply in_app_or in Hin.
    destruct Hin as [Hin|Hin].
    + apply in_app_or in Hin. destruct Hin as [Hin|Hin]; [left; exact Hin|].
      destruct Hcases as [->| ->]; [destruct Hin|].
      destruct Hin as [H|[]]. right. congruence.
    + destruct (Hall _ Hin) as [H|(a & n & _ & H)]; discriminate H.
Qed.

(** A transport built from a [LogwellConfig] that has no [max_retries]
    gets the endpoint and the API key of that configuration, three
    retries and a timeout of 30 seconds. A [send] on it makes no more
    than four posts and three sleeps, and exactly four posts when the
    first four attempts all fail with retryable errors; it works with a
    client of its own making whose timeout is 30 seconds, and posts to
    the configured endpoint followed by [/v1/ingest]. *)
Theorem logwell_config_defaults (lc : LogwellConfig) (w : World LogEntry)
    (logs : list LogEntry) :
  lc_max_retries lc = None ->
  _config (__init__ (inl lc)) =
    mkTransportConfig (lc_endpoint lc) (lc_api_key lc) 3 PyFloat.lit_30 /\
  exists (q : nat) (c : AsyncClient),
    (q <= 3)%nat /\
    advanced logs (S q) q (mkStore (__init__ (inl lc)) w)
      (snd (send py_format network random_random logs
              (mkStore (__init__ (inl lc)) w))) /\
    ((forall i, (i <= 3)%nat ->
        fails_retryably py_format
          (exchange_at network logs (mkStore (__init__ (inl lc)) w) i)) ->
     q = 3%nat) /\
    _client (self (snd (send py_format network random_random logs
                          (mkStore (__init__ (inl lc)) w)))) = Some c /\
    c = mkAsyncClient (clients_made w) PyFloat.lit_30 /\
    _ingest_url (self (snd (send py_format network random_random logs
                              (mkStore (__init__ (inl lc)) w)))) =
      (lc_endpoint lc ++ "/v1/ingest")%string /\
    In (EvClientCreated c)
       (trace (world (snd (send py_format network random_random logs
                             (mkStore (__init__ (inl lc)) w))))).
Proof.
  intros Hnone.
  assert (Hcfg : _config (__init__ (inl lc)) =
                 mkTransportConfig (lc_endpoint lc) (lc_api_key lc) 3
                   PyFloat.lit_30).
  { unfold __init__, from_logwell_config. cbn. rewrite Hnone. reflexivity. }
  split; [exact Hcfg|].
  set (s := mkStore (__init__ (inl lc)) w).
  assert (Hm : max_retries (_config (self s)) = 3).
  { unfold s. cbn [self]. rewrite Hcfg. reflexivity. }
  assert (Hmax : 0 <= max_retries (_config (self s))) by lia.
  destruct (send_run logs s Hmax)
    as (q & Hq & Hadv & _ & _ & _ & Hout & Hend).
  destruct (send_kept logs s Hmax) as (Hself & _ & ext & Htr & _).
  rewrite Hm in Hq, Hend.
  exists q, (mkAsyncClient (clients_made w) PyFloat.lit_30).
  split; [exact (Nat.le_trans _ _ _ Hq (Nat.le_refl 3))|].
  split; [exact Hadv|].
  split.
  { intros Hfail.
    assert (Hq3 : (q <= 3)%nat) by exact Hq.
    pose proof (Hfail q Hq3) as Hf.
    apply Hend; [exact Hf|].
    destruct Hout as [Ho|(_ & _ & Hge & _)]; [|lia].
    destruct Hf as (e & He & _). rewrite Ho, He. discriminate. }
  rewrite Hself, Htr.
  split; [reflexivity|]. split; [reflexivity|]. split; [reflexivity|].
  apply in_or_app. left. cbn. apply in_or_app. right. left. reflexivity.
Qed.

Lemma string_app_assoc (a b c : string) :
  ((a ++ b) ++ c = a ++ b ++ c)%string.
Proof.
  induction a as [|ch a IH]; [reflexivity|].
  cbn. rewrite IH. reflexivity.
Qed.

(** The message of the error raised for a response that is no 2xx: a
    prefix that depends on the status alone, then the text
    [_try_parse_error] found, which is never empty nor [None]; a
    non-empty [message] string of the body, or a non-empty [error]
    string when the body has no [message], ends the message as it is. *)
Theorem error_message_carries_server_text (r : Response) :
  is_success r = false ->
  exists (e : LogwellError) (prefix : string),
    attempt_outcome py_format (Responded r) = Raised (Exc_Logwell e) /\
    prefix = message (_create_error py_format (status_code r) (PyStr EmptyString)) /\
    message e = (prefix ++ fstr py_format (_try_parse_error r))%string /\
    truthy (_try_parse_error r) = true /\
    (forall body m,
       json_body r = Some (PyDict body) ->
       lookup "message" body = Some (PyStr m) -> m <> EmptyString ->
       message e = (prefix ++ m)%string) /\
    (forall body m,
       json_body r = Some (PyDict body) ->
       lookup "message" body = None ->
       lookup "error" body = Some (PyStr m) -> m <> EmptyString ->
       message e = (prefix ++ m)%string).
Proof.
  intros Hs.
  assert (Hmsg : forall v,
            message (_create_error py_format (status_code r) v) =
            (message (_create_error py_format (status_code r) (PyStr EmptyString))
               ++ fstr py_format v)%string).
  { intros v. unfold _create_error.
    destruct (status_code r =? 401); [reflexivity|].
    destruct (status_code r =? 400); [reflexivity|].
    destruct (status_code r =? 429); [reflexivity|].
    destruct (status_code r >=? 500); [reflexivity|].
    cbn [message fstr].
    rewrite !string_app_assoc. reflexivity. }
  eexists _, _. cbn [attempt_outcome]. rewrite Hs.
  split; [reflexivity|]. split; [reflexivity|].
  split; [apply Hmsg|].
  split.
  { unfold _try_parse_error.
    destruct (json_body r) as [[| | | | | |body]|]; try reflexivity.
    unfold py_or.
    destruct (truthy (dict_get body "message")) eqn:H1; [exact H1|].
    destruct (truthy (dict_get body "error")) eqn:H2; [exact H2|reflexivity]. }
  split.
  - intros body m Hb Hl Hne. rewrite Hmsg. f_equal.
    unfold _try_parse_error, py_or, dict_get. rewrite Hb, Hl.
    destruct m; [contradiction|reflexivity].
  - intros body m Hb Hl1 Hl2 Hne. rewrite Hmsg. f_equal.
    unfold _try_parse_error, py_or, dict_get. rewrite Hb, Hl1, Hl2.
    destruct m; [contradiction|reflexivity].
Qed.

(** *** The request of an attempt, and the client after [close] *)

Lemma send_without_client (logs : list LogEntry) (s : Store LogEntry) :
  _client (self s) = None ->
  0 <= max_retries (_config (self s)) ->
  exists q : nat,
    Z.of_nat q <= max_retries (_config (self s)) /\
    trace (world (snd (send py_format network random_random logs s))) =
      trace (world s) ++
      EvClientCreated
        (mkAsyncClient (clients_made (world s)) (timeout (_config (self s)))) ::
      EvPost
        (mkAsyncClient (clients_made (world s)) (timeout (_config (self s))))
        (ingest_request (self s) logs) ::
      retry_events
        (mkAsyncClient (clients_made (world s)) (timeout (_config (self s))))
        (ingest_request (self s) logs) 0 (draws_made (world s)) q /\
    _client (self (snd (send py_format network random_random logs s))) =
      Some (mkAsyncClient (clients_made (world s))
              (timeout (_config (self s)))) /\
    clients_made (world (snd (send py_format network random_random logs s))) =
      S (clients_made (world s)).
Proof.
  intros Hnone Hmax.
  destruct (send_kept logs s Hmax) as (Hself & Hmade & _).
  revert Hself Hmade.
  rewrite send_eq, range_succ by exact Hmax.
  cbn [seq]. rewrite send_loop_ensure.
  assert (He : ensure_client s =
               (mkAsyncClient (clients_made (world s))
                  (timeout (_config (self s))),
                mkStore
                  (mkHttpTransport (_config (self s)) (_ingest_url (self s))
                     (Some (mkAsyncClient (clients_made (world s))
                              (timeout (_config (self s))))))
                  (mkWorld
                     (trace (world s) ++
                      [EvClientCreated
                         (mkAsyncClient (clients_made (world s))
                            (timeout (_config (self s))))])
                     (S (clients_made (world s))) (posts_made (world s))
                     (draws_made (world s))))).
  { unfold ensure_client. rewrite Hnone. reflexivity. }
  rewrite He. cbn [fst snd]. intros Hself Hmade.
  match goal with
  | |- context [send_loop _ _ _ _ _ _ ?s0] => set (s0' := s0) in *
  end.
  destruct (send_loop_trace
              (mkAsyncClient (clients_made (world s)) (timeout (_config (self s))))
              logs (Z.to_nat (max_retries (_config (self s))))
              0%nat placeholder s0' eq_refl) as (q & Hq & _ & Htr).
  { cbn [s0' self _config]. lia. }
  exists q. split; [lia|].
  unfold placeholder in Htr. cbn [seq] in Htr.
  split.
  - rewrite Htr. cbn [s0' self world trace draws_made].
    rewrite <- app_assoc. reflexivity.
  - split.
    + rewrite Hself. reflexivity.
    + rewrite Hmade. reflexivity.
Qed.

(** C8: on a transport built by [__init__] from a configuration, one
    attempt sends exactly one POST: to the endpoint of that
    configuration followed by [/v1/ingest], with the headers
    [Authorization: Bearer] and the API key of that configuration, and
    [Content-Type: application/json], and with the batch itself as the
    JSON payload, empty or not; and every post of a whole [send] is that
    same request, one per attempt made, at least one when the
    configuration allows an attempt and never more than its
    [max_retries + 1]. *)
Theorem one_post_per_attempt (config : LogwellConfig + TransportConfig)
    (oc : option AsyncClient) (w : World LogEntry) (logs : list LogEntry) :
  let given_endpoint :=
    match config with inl lc => lc_endpoint lc | inr tc => endpoint tc end in
  let given_api_key :=
    match config with inl lc => lc_api_key lc | inr tc => api_key tc end in
  let given_max_retries :=
    match config with
    | inl lc => match lc_max_retries lc with Some n => n | None => 3 end
    | inr tc => max_retries tc
    end in
  let s := mkStore (in_use (__init__ config) oc) w in
  let req :=
    mkRequest (given_endpoint ++ "/v1/ingest")%string
      [("Authorization", ("Bearer " ++ given_api_key)%string);
       ("Content-Type", "application/json")]
      logs in
  requests_in (trace (world (snd (_do_request py_format network logs s)))) =
    requests_in (trace w) ++ [req] /\
  posts_in (trace (world (snd (_do_request py_format network logs s)))) =
    S (posts_in (trace w)) /\
  (exists t c,
     trace (world (snd (_do_request py_format network logs s))) =
     t ++ [EvPost c req]) /\
  exists attempts_made : nat,
    (0 <= given_max_retries -> (1 <= attempts_made)%nat) /\
    (attempts_made <= Z.to_nat (given_max_retries + 1))%nat /\
    posts_made (world (snd (send py_format network random_random logs s))) =
      (posts_made w + attempts_made)%nat /\
    posts_in (trace (world (snd
      (send py_format network random_random logs s)))) =
      (posts_in (trace w) + attempts_made)%nat /\
    requests_in (trace (world (snd
      (send py_format network random_random logs s)))) =
      requests_in (trace w) ++ repeat req attempts_made.
Proof.
  intros given_endpoint given_api_key given_max_retries s req.
  assert (Hreq : ingest_request (self s) logs = req)
    by (destruct config; reflexivity).
  assert (Hm : max_retries (_config (self s)) = given_max_retries)
    by (destruct config; reflexivity).
  split; [|split; [|split]].
  - rewrite _do_request_eq. cbn [snd].
    rewrite posted_requests_in, Hreq. reflexivity.
  - rewrite _do_request_eq. cbn [snd]. apply posted_posts_in.
  - rewrite _do_request_eq. cbn [snd].
    unfold posted. destruct (ensure_client s) as [c s1] eqn:He.
    assert (Hr1 : ingest_request (self s1) logs = req).
    { rewrite <- Hreq. replace s1 with (snd (ensure_client s))
        by (rewrite He; reflexivity).
      destruct (ensure_client_view s) as (Hc & Hu & _).
      unfold ingest_request. rewrite Hc, Hu. reflexivity. }
    cbn [world trace]. rewrite Hr1. eexists _, _. reflexivity.
  - destruct (Z.lt_ge_cases given_max_retries 0) as [Hneg|Hpos].
    + exists 0%nat.
      rewrite send_no_attempt by (rewrite Hm; exact Hneg).
      cbn [snd repeat]. rewrite app_nil_r, !Nat.add_0_r.
      split; [lia|]. split; [lia|]. repeat split.
    + destruct (send_run logs s ltac:(rewrite Hm; exact Hpos))
        as (q & Hq & Hadv & _).
      destruct Hadv as (_ & _ & Hposts & Hin & _ & Hreqs).
      rewrite Hreq in Hreqs. rewrite Hm in Hq.
      exists (S q).
      split; [lia|]. split; [lia|].
      split; [exact Hposts|]. split; [exact Hin|exact Hreqs].
Qed.

(** C10: [_get_client] creates a client when the handle is absent and
    stores it, and returns the stored client otherwise; [close] closes
    the stored client and resets the handle to absent, and does nothing
    when the handle is absent, as on a transport never used; after
    [close] the next attempt creates a new client and posts with it; and
    a [send] after [close] ends as it would have without the [close],
    and when retries are allowed it starts by creating a new client,
    one the world has not seen, with the configured timeout, makes all
    its posts with that client and leaves it stored. *)
Theorem client_recreated_after_close (logs : list LogEntry)
    (s : Store LogEntry) :
  (_client (self s) = None ->
   exists c s1,
     _get_client s = (Returned c, s1) /\
     _client (self s1) = Some c /\
     trace (world s1) = trace (world s) ++ [EvClientCreated c]) /\
  (forall c, _client (self s) = Some c -> _get_client s = (Returned c, s)) /\
  (forall c, _client (self s) = Some c ->
   exists s1,
     close s = (Returned tt, s1) /\
     _client (self s1) = None /\
     trace (world s1) = trace (world s) ++ [EvClientClosed c]) /\
  (_client (self s) = None -> close s = (Returned tt, s)) /\
  (forall config, _client (__init__ config) = None) /\
  fst (close s) = Returned tt /\
  _client (self (snd (close s))) = None /\
  close (snd (close s)) = (Returned tt, snd (close s)) /\
  (exists c s2,
     _do_request py_format network logs (snd (close s)) =
       (attempt_outcome py_format (next_exchange network logs s), s2) /\
     _client (self s2) = Some c /\
     trace (world s2) =
       trace (world (snd (close s))) ++
       [EvClientCreated c; EvPost c (ingest_request (self s) logs)]) /\
  fst (send py_format network random_random logs (snd (close s))) =
    fst (send py_format network random_random logs s) /\
  (0 <= max_retries (_config (self s)) ->
   exists (c : AsyncClient) (q : nat),
     c = mkAsyncClient (clients_made (world (snd (close s))))
           (timeout (_config (self s))) /\
     Z.of_nat q <= max_retries (_config (self s)) /\
     trace (world (snd
       (send py_format network random_random logs (snd (close s))))) =
       trace (world (snd (close s))) ++
       EvClientCreated c ::
       EvPost c (ingest_request (self s) logs) ::
       retry_events c (ingest_request (self s) logs) 0
         (draws_made (world s)) q /\
     _client (self (snd
       (send py_format network random_random logs (snd (close s))))) =
       Some c /\
     clients_made (world (snd
       (send py_format network random_random logs (snd (close s))))) =
       S (clients_made (world (snd (close s))))).
Proof.
  split; [|split; [|split; [|split; [|split]]]].
  - intros Hc. rewrite _get_client_eq. unfold ensure_client. rewrite Hc.
    eexists _, _. split; [reflexivity|]. split; reflexivity.
  - intros c Hc. rewrite _get_client_eq. unfold ensure_client. rewrite Hc.
    destruct s; reflexivity.
  - intros c Hc. rewrite (close_with_client c s Hc).
    eexists. split; [reflexivity|]. split; reflexivity.
  - intros Hc. unfold close, bind, get_self. rewrite Hc. reflexivity.
  - intros config. reflexivity.
  - assert (Hclosed : exists s1,
              close s = (Returned tt, s1) /\
              _client (self s1) = None /\
              _config (self s1) = _config (self s) /\
              _ingest_url (self s1) = _ingest_url (self s) /\
              posts_made (world s1) = posts_made (world s) /\
              draws_made (world s1) = draws_made (world s)).
    { destruct (_client (self s)) as [c0|] eqn:Hc.
      - rewrite (close_with_client c0 s Hc). eexists.
        split; [reflexivity|]. repeat split.
      - exists s. unfold close, bind, get_self. rewrite Hc.
        split; [reflexivity|]. split; [reflexivity|]. repeat split. }
    destruct Hclosed as (s1 & Hclose & Hnone & Hcfg & Hurl & Hposts & Hdraws).
    rewrite Hclose. cbn [fst snd].
    assert (Hreq : ingest_request (self s1) logs = ingest_request (self s) logs).
    { unfold ingest_request. rewrite Hcfg, Hurl. reflexivity. }
    assert (Hnext : next_exchange network logs s1 = next_exchange network logs s).
    { unfold next_exchange. rewrite Hreq, Hposts. reflexivity. }
    split; [reflexivity|]. split; [exact Hnone|].
    split; [unfold close, bind, get_self; rewrite Hnone; reflexivity|].
    split; [|split].
    + rewrite _do_request_eq, Hnext. eexists _, _.
      split; [reflexivity|].
      unfold posted, ensure_client. rewrite Hnone. cbn.
      split; [reflexivity|].
      rewrite <- app_assoc, Hcfg, Hurl. reflexivity.
    + rewrite !send_eq, Hcfg.
      apply send_loop_same_view. repeat split; assumption.
    + intros Hmax.
      destruct (send_without_client logs s1 Hnone ltac:(rewrite Hcfg; exact Hmax))
        as (q & Hq & Htr & Hcl & Hmade).
      rewrite Hcfg, Hreq, Hdraws in *.
      eexists _, q. split; [reflexivity|]. split; [exact Hq|].
      split; [exact Htr|]. split; [exact Hcl|exact Hmade].
Qed.

End Runs.

(** ** The backoff schedule *)

(** Before jitter, the backoff of attempts 0 to 1023 never shrinks from
    one attempt to a later one and stays between the double 0.1 and 10
    seconds; up to attempt 6 it is the double 0.1 times [2^attempt] with
    no rounding, and from attempt 7 on it is 10.0. *)
Theorem backoff_schedule (a b : nat) :
  (a <= b)%nat -> (b < 1024)%nat ->
  exists da db : PyFloat.float,
    delay_secs a PyFloat.lit_0_1 = Some da /\
    delay_secs b PyFloat.lit_0_1 = Some db /\
    (value da <= value db)%Q /\
    (value PyFloat.lit_0_1 <= value da)%Q /\
    (value db <= 10)%Q /\
    ((b < 7)%nat ->
     (value db == value PyFloat.lit_0_1 * 2 ^ Z.of_nat b)%Q) /\
    ((7 <= b)%nat -> db = PyFloat.lit_10).
Proof.
  intros Hab Hb.
  exists (capped a), (capped b).
  split; [apply delay_secs_capped; lia|].
  split; [apply delay_secs_capped; exact Hb|].
  assert (P01 : (0 < value PyFloat.lit_0_1)%Q) by reflexivity.
  assert (Hpow : forall n m : nat, (n <= m)%nat ->
            (2 ^ Z.of_nat n <= 2 ^ Z.of_nat m)%Q).
  { intros n m Hnm. apply Qpower_le_compat_l; [lia|discriminate]. }
  assert (H1 : forall n : nat, (1 <= 2 ^ Z.of_nat n)%Q).
  { intros n. change 1%Q with (2 ^ Z.of_nat 0)%Q. apply Hpow. lia. }
  destruct (capped_value a) as (Hsa & Hba).
  destruct (capped_value b) as (Hsb & Hbb).
  split; [|split; [|split; [|split]]].
  - destruct (Nat.lt_ge_cases b 7) as [Hb7|Hb7].
    + destruct (Hsa ltac:(lia)) as (Hva & _).
      destruct (Hsb Hb7) as (Hvb & _).
      rewrite Hva, Hvb. pose proof (Hpow a b Hab). nra.
    + destruct (Hbb Hb7) as (Hvb & _). rewrite Hvb.
      destruct (Nat.lt_ge_cases a 7) as [Ha7|Ha7].
      * destruct (Hsa Ha7) as (Hva & Hle). rewrite Hva. exact Hle.
      * destruct (Hba Ha7) as (Hva & _). rewrite Hva. apply Qle_refl.
  - destruct (Nat.lt_ge_cases a 7) as [Ha7|Ha7].
    + destruct (Hsa Ha7) as (Hva & _). rewrite Hva.
      pose proof (H1 a). nra.
    + destruct (Hba Ha7) as (Hva & _). rewrite Hva. vm_compute. discriminate.
  - destruct (Nat.lt_ge_cases b 7) as [Hb7|Hb7].
    + destruct (Hsb Hb7) as (Hvb & Hle). rewrite Hvb. exact Hle.
    + destruct (Hbb Hb7) as (Hvb & _). rewrite Hvb. apply Qle_refl.
  - intros Hb7. apply Hsb, Hb7.
  - intros Hb7. unfold capped.
    replace (b <? 7)%nat with false by (symmetry; apply Nat.ltb_ge; exact Hb7).
    reflexivity.
Qed.

(** ** More concrete runs *)

Lemma demo_draws_unit (n : nat) : unit_draw (Demo.draws n).
Proof.
  right. exists 4503599627370496%positive, (-53).
  split; [reflexivity|]. split; [unfold normal; lia|lia].
Defined.

(** Three retries allowed and a network that refuses every connection. *)
Lemma send_posts_once_more_than_it_sleeps_witness :
  exists q : nat,
    Z.of_nat q <= 3 /\
    posts_in (trace (world (snd
      (send Demo.format (Demo.always (RequestError "connection refused"))
         Demo.draws Demo.logs (Demo.fresh 3))))) = S q /\
    sleeps_in (trace (world (snd
      (send Demo.format (Demo.always (RequestError "connection refused"))
         Demo.draws Demo.logs (Demo.fresh 3))))) = q.
Proof.
  destruct (send_posts_once_more_than_it_sleeps string Demo.format
              (Demo.always (RequestError "connection refused"))
              Demo.draws Demo.logs (Demo.fresh 3))
    as (q & Hq & Hadv & _).
  - simpl. lia.
  - exists q. split; [exact Hq|].
    destruct Hadv as (_ & _ & _ & Hp & Hs & _).
    split; [exact Hp|exact Hs].
Defined.


(** [max_retries = -1]: the loop has no turn. *)
Lemma send_negative_retries_posts_nothing_witness :
  send Demo.format (Demo.always (Responded Demo.ok_200))
    Demo.draws Demo.logs (Demo.fresh (-1)) =
  (Raised (Exc_Logwell placeholder), Demo.fresh (-1)).
Proof.
  apply (send_negative_retries_posts_nothing string Demo.format
           (Demo.always (Responded Demo.ok_200))
           Demo.draws Demo.logs (Demo.fresh (-1))).
  simpl. lia.
Defined.

(** Two refusals, then a post that raises an exception that is none of
    httpx's. *)
Lemma send_escapes_after_witness :
  exists s',
    send Demo.format (Demo.refused_until 2 (OtherException "TypeError"))
      Demo.draws Demo.logs (Demo.fresh 3) =
      (Raised (Exc_Other "TypeError"), s') /\
    posts_in (trace (world s')) = 3%nat /\
    sleeps_in (trace (world s')) = 2%nat.
Proof.
  destruct (send_escapes_after string Demo.format
              (Demo.refused_until 2 (OtherException "TypeError"))
              Demo.draws Demo.logs (Demo.fresh 3) 2 (Exc_Other "TypeError"))
    as (s' & Hrun & Hadv & _).
  - lia.
  - simpl. lia.
  - intros i Hi. apply refused_until_fails. simpl. lia.
  - reflexivity.
  - intros e H. discriminate H.
  - exists s'. split; [exact Hrun|].
    destruct Hadv as (_ & _ & _ & Hp & Hs & _).
    split; [exact Hp|exact Hs].
Defined.


(** A fresh transport whose first batch is accepted: client number 0,
    with the configured timeout, is the only one made and stays stored. *)
Lemma send_uses_one_client_witness :
  _client (self (snd
    (send Demo.format (Demo.always (Responded Demo.ok_200))
       Demo.draws Demo.logs (Demo.fresh 3)))) =
    Some (mkAsyncClient 0 PyFloat.lit_30) /\
  clients_made (world (snd
    (send Demo.format (Demo.always (Responded Demo.ok_200))
       Demo.draws Demo.logs (Demo.fresh 3)))) = 1%nat.
Proof.
  destruct (send_uses_one_client string Demo.format
              (Demo.always (Responded Demo.ok_200))
              Demo.draws Demo.logs (Demo.fresh 3)
              (snd (_get_client (Demo.fresh 3)))
              (mkAsyncClient 0 PyFloat.lit_30))
    as (Hself & Hcl & Hmade & _).
  - simpl. lia.
  - reflexivity.
  - split; [rewrite Hself; exact Hcl|exact Hmade].
Defined.

(** Every draw 0.5 and every connection refused: three sleeps, none
    longer than 13 seconds. *)
Lemma send_sleeps_between_100ms_and_13s_witness :
  exists ext,
    trace (world (snd
      (send Demo.format (Demo.always (RequestError "connection refused"))
         Demo.draws Demo.logs (Demo.fresh 3)))) = ext /\
    forall secs, In (EvSleep secs) ext ->
      PyFloat.ltb (S754_zero false) secs = true /\
      PyFloat.leb secs PyFloat.lit_13 = true.
Proof.
  destruct (send_sleeps_between_100ms_and_13s string Demo.format
              (Demo.always (RequestError "connection refused"))
              Demo.draws Demo.logs (Demo.fresh 3) demo_draws_unit)
    as (ext & Htr & Hall).
  exists ext. split; [exact Htr|].
  intros secs Hin. destruct (Hall secs Hin) as (Hpos & Hhi & _).
  split; [exact Hpos|exact Hhi].
Defined.

(** A batch accepted at once, then [close]. *)
Lemma close_after_send_closes_its_client_witness :
  exists c : AsyncClient,
    _client (self (snd (close (snd
      (send Demo.format (Demo.always (Responded Demo.ok_200))
         Demo.draws Demo.logs (Demo.fresh 3)))))) = None /\
    trace (world (snd (close (snd
      (send Demo.format (Demo.always (Responded Demo.ok_200))
         Demo.draws Demo.logs (Demo.fresh 3)))))) =
    trace (world (snd
      (send Demo.format (Demo.always (Responded Demo.ok_200))
         Demo.draws Demo.logs (Demo.fresh 3)))) ++ [EvClientClosed c].
Proof.
  destruct (close_after_send_closes_its_client string Demo.format
              (Demo.always (Responded Demo.ok_200))
              Demo.draws Demo.logs (Demo.fresh 3))
    as (c & _ & Hnone & Htr & _).
  - simpl. lia.
  - exists c. split; [exact Hnone|exact Htr].
Defined.

(** A [LogwellConfig] of two keys, every connection refused: four
    posts and three sleeps. *)
Lemma logwell_config_defaults_witness :
  max_retries (_config (__init__
    (inl (mkLogwellConfig "https://logs.example.com" "key-1" None)))) = 3 /\
  exists c : AsyncClient,
    posts_in (trace (world (snd
      (send Demo.format (Demo.always (RequestError "connection refused"))
         Demo.draws Demo.logs
         (mkStore
            (__init__ (inl (mkLogwellConfig "https://logs.example.com"
                              "key-1" None)))
            (mkWorld [] 0 0 0)))))) = 4%nat /\
    _client (self (snd
      (send Demo.format (Demo.always (RequestError "connection refused"))
         Demo.draws Demo.logs
         (mkStore
            (__init__ (inl (mkLogwellConfig "https://logs.example.com"
                              "key-1" None)))
            (mkWorld [] 0 0 0))))) = Some c /\
    c = mkAsyncClient 0 PyFloat.lit_30.
Proof.
  destruct (logwell_config_defaults string Demo.format
              (Demo.always (RequestError "connection refused"))
              Demo.draws
              (mkLogwellConfig "https://logs.example.com" "key-1" None)
              (mkWorld [] 0 0 0) Demo.logs eq_refl)
    as (Hcfg & q & c & _ & Hadv & Hall & Hc & Heq & _).
  split; [rewrite Hcfg; reflexivity|].
  exists c.
  assert (Hq : q = 3%nat)
    by (apply Hall; intros i _; exact refused_fails_retryably).
  subst q.
  destruct Hadv as (_ & _ & _ & Hp & _).
  split; [exact Hp|]. split; [exact Hc|exact Heq].
Defined.

(** The 429 whose body has an [error] and no [message]. *)
Lemma error_message_carries_server_text_witness :
  exists e : LogwellError,
    attempt_outcome Demo.format (Responded Demo.slow_down_429) =
      Raised (Exc_Logwell e) /\
    message e = "Rate limited: slow down".
Proof.
  destruct (error_message_carries_server_text Demo.format
              Demo.slow_down_429 eq_refl)
    as (e & p & Ho & Hp & _ & _ & _ & Herr).
  exists e. split; [exact Ho|].
  rewrite (Herr _ "slow down" eq_refl eq_refl eq_refl), Hp;
    [reflexivity|discriminate].
Defined.

(** Attempts 3 and 8: 0.8 seconds, then the cap. *)
Lemma backoff_schedule_witness :
  exists da db : PyFloat.float,
    delay_secs 3 PyFloat.lit_0_1 = Some da /\
    delay_secs 8 PyFloat.lit_0_1 = Some db /\
    (value da <= value db)%Q /\
    db = PyFloat.lit_10.
Proof.
  destruct (backoff_schedule 3 8) as (da & db & Ha & Hb & Hle & _ & _ & _ & Hcap);
    [lia|lia|].
  exists da, db. split; [exact Ha|]. split; [exact Hb|].
  split; [exact Hle|apply Hcap; lia].
Defined.


(** A transport built from a [TransportConfig], never used, and a
    network that accepts the batch: one attempt, one post, to the
    endpoint given and with the key given. *)
Lemma one_post_per_attempt_witness :
  requests_in (trace (world (snd
    (send Demo.format (Demo.always (Responded Demo.ok_200))
       Demo.draws Demo.logs (Demo.fresh 3))))) =
  [mkRequest "https://logs.example.com/v1/ingest"
     [("Authorization", "Bearer key-1");
      ("Content-Type", "application/json")]
     Demo.logs].
Proof.
  destruct (one_post_per_attempt string Demo.format
              (Demo.always (Responded Demo.ok_200)) Demo.draws
              (inr (Demo.config 3)) None (mkWorld [] 0 0 0) Demo.logs)
    as (_ & _ & _ & n & Hlo & Hhi & Hm & _ & Hreqs).
  assert (Hn : n = 1%nat).
  { assert (H1 : posts_made (world (snd
                   (send Demo.format (Demo.always (Responded Demo.ok_200))
                      Demo.draws Demo.logs (Demo.fresh 3)))) = 1%nat)
      by reflexivity.
    change (mkStore (in_use (__init__ (inr (Demo.config 3))) None)
              (mkWorld [] 0 0 0)) with (Demo.fresh 3) in Hm.
    rewrite H1 in Hm. simpl in Hm. symmetry. exact Hm. }
  subst n. exact Hreqs.
Defined.

(** A transport that has sent a batch and is closed: the next [send]
    makes client number 1 and posts with it. *)
Lemma client_recreated_after_close_witness :
  exists q : nat,
    trace (world (snd
      (send Demo.format (Demo.always (Responded Demo.ok_200))
         Demo.draws Demo.logs
         (snd (close (posted Demo.logs (Demo.fresh 3))))))) =
    trace (world (snd (close (posted Demo.logs (Demo.fresh 3))))) ++
    EvClientCreated (mkAsyncClient 1 PyFloat.lit_30) ::
    EvPost (mkAsyncClient 1 PyFloat.lit_30)
      (ingest_request (self (Demo.fresh 3)) Demo.logs) ::
    retry_events string Demo.draws (mkAsyncClient 1 PyFloat.lit_30)
      (ingest_request (self (Demo.fresh 3)) Demo.logs) 0 0 q.
Proof.
  destruct (client_recreated_after_close string Demo.format
              (Demo.always (Responded Demo.ok_200)) Demo.draws
              Demo.logs (posted Demo.logs (Demo.fresh 3)))
    as (_ & _ & _ & _ & _ & _ & _ & _ & _ & _ & Hsend).
  destruct Hsend as (c & q & Hc & _ & Htr & _).
  - simpl. lia.
  - exists q. subst c. exact Htr.
Defined.
